(** * SPARQL to ThingTalk converter: a shallow embedding

    The development follows the TypeScript sources:
    - [Misc]      : lib/utils/misc.ts      (spans and word-level similarity)
    - [Wikidata]  : lib/utils/wikidata.ts and dist/lib/utils/wikidata.js
                    (the cached request primitive)
    - [Converter] : lib/converter.ts and lib/converter2/helpers/filter.ts
                    (clause folding and program generation). *)

From Stdlib Require Import List String Ascii Bool Arith NArith ZArith QArith Lia Sorted
  Permutation.
From Equations Require Import Equations.
Import ListNotations.

Set Implicit Arguments.
Set Warnings "-register-all".

Close Scope Q_scope.
Open Scope nat_scope.
Open Scope string_scope.
Open Scope list_scope.

(* ================================================================= *)
(** * lib/utils/misc.ts *)
(* ================================================================= *)

Module Misc.

(** A JavaScript string is a sequence of UTF-16 code units. *)
Definition jsstring := list N.

(** A literal of the source, written with Rocq's string notation. *)
Definition js (s : string) : jsstring :=
  map N_of_ascii (list_ascii_of_string s).

Definition jseqb (a b : jsstring) : bool :=
  if list_eq_dec N.eq_dec a b then true else false.

(** [Array.prototype.includes] on strings. *)
Definition includes (arr : list jsstring) (v : jsstring) : bool :=
  existsb (jseqb v) arr.

(** The class [[.!?]]. *)
Definition is_end_punct (c : N) : bool :=
  ((c =? 46) || (c =? 33) || (c =? 63))%N.

(** [v.replace(/[.!?]$/g, '')]: without the [m] flag [$] only matches at the
    end of the input, so at most the last code unit is dropped. *)
Fixpoint removeEndPunctuation (v : jsstring) : jsstring :=
  match v with
  | [] => []
  | c :: r =>
      match r with
      | [] => if is_end_punct c then [] else [c]
      | _ :: _ => c :: removeEndPunctuation r
      end
  end.

(** The class [\s] of ECMAScript regular expressions. *)
Definition is_space (c : N) : bool :=
  (existsb (N.eqb c)
     [9; 10; 11; 12; 13; 32; 160; 5760; 8232; 8233; 8239; 8287; 12288; 65279]
   || ((8192 <=? c) && (c <=? 8202)))%N.

(** [s.split(/\s+/)]: the pieces between maximal runs of white space; a run at
    either end of the input leaves an empty piece there, and the empty input
    gives one empty piece.  [in_sep] says that the previous unit was white
    space, [cur] is the piece being read, last unit first. *)
Fixpoint split_from (in_sep : bool) (cur : jsstring) (s : jsstring)
  : list jsstring :=
  match s with
  | [] => [rev cur]
  | c :: r =>
      if is_space c then
        if in_sep then split_from true cur r
        else rev cur :: split_from true [] r
      else split_from false (c :: cur) r
  end.

Definition split_spaces (s : jsstring) : list jsstring :=
  split_from false [] s.

(** [s.split(' ')]: every single space separates two pieces. *)
Fixpoint split_on_from (sep : N) (cur : jsstring) (s : jsstring)
  : list jsstring :=
  match s with
  | [] => [rev cur]
  | c :: r =>
      if (c =? sep)%N then rev cur :: split_on_from sep [] r
      else split_on_from sep (c :: cur) r
  end.

Definition split_on (sep : N) (s : jsstring) : list jsstring :=
  split_on_from sep [] s.

(** [arr.join(sep)]. *)
Fixpoint join (sep : jsstring) (l : list jsstring) : jsstring :=
  match l with
  | [] => []
  | x :: r =>
      match r with
      | [] => x
      | _ :: _ => x ++ sep ++ join sep r
      end
  end.

(** [arr.slice(b, e)] for indices [0 <= b <= e]. *)
Definition slice {A : Type} (b e : nat) (l : list A) : list A :=
  firstn (e - b) (skipn b l).

(** [getSpans]: the two counted loops push one span per (len, index). *)
Definition getSpans (s : jsstring) : list jsstring :=
  let tokens := split_spaces (removeEndPunctuation s) in
  flat_map
    (fun len =>
       map (fun index => join (js " ") (slice index (index + len) tokens))
           (seq 0 (List.length tokens - len + 1)))
    (seq 1 (List.length tokens)).

(** ** Word-level similarity *)

Inductive algorithm := jaccard | f1.

(** The value of a score: the quotients of array lengths that [similarity]
    returns, as exact rationals (the code holds each as the nearest
    double). *)
Definition number := Q.

Definition of_length {A : Type} (l : list A) : number :=
  inject_Z (Z.of_nat (List.length l)).

(** [[...new Set(l)]]: the distinct elements, in order of first occurrence. *)
Definition distinct (l : list jsstring) : list jsstring :=
  fold_left (fun seen v => if includes seen v then seen else seen ++ [v]) l [].

Section Similarity.

(** What the platform and the imported packages provide:
    [String.prototype.toLowerCase], [String.prototype.normalize('NFD')],
    [removeStopwords] of the package stopword and the default export of
    en-stemmer. *)
Variable toLowerCase : jsstring -> jsstring.
Variable normalizeNFD : jsstring -> jsstring.
Variable removeStopwords : list jsstring -> list jsstring.
Variable stemmer : jsstring -> jsstring.

(** [v.normalize('NFD').replace(/[\u0300-\u036f]/g, '')]: the combining
    marks U+0300 to U+036F are deleted. *)
Definition removeAccent (v : jsstring) : jsstring :=
  filter (fun c => negb ((768 <=? c) && (c <=? 879))%N) (normalizeNFD v).

Definition clean (s : jsstring) : jsstring := stemmer (removeAccent s).

(** The array [arr1] (and [arr2]) of [similarity]. *)
Definition cleaned (s : jsstring) : list jsstring :=
  map clean (removeStopwords (split_on 32 (toLowerCase s))).

Definition similarity (s1 s2 : jsstring) (alg : algorithm) : number :=
  let arr1 := cleaned s1 in
  let arr2 := cleaned s2 in
  match arr1, arr2 with
  | [], _ | _, [] => 0%Q
  | _ :: _, _ :: _ =>
      let intersect := filter (fun v => includes arr2 v) arr1 in
      match alg with
      | jaccard =>
          let union := distinct (arr1 ++ arr2) in
          (of_length intersect / of_length union)%Q
      | f1 =>
          let precision := (of_length intersect / of_length arr1)%Q in
          let recall := (of_length intersect / of_length arr2)%Q in
          if Qeq_bool precision 0 || Qeq_bool recall 0 then 0%Q
          else (2 * precision * recall / (precision + recall))%Q
      end
  end.

End Similarity.

(** ** Names *)

(** [prefix] starts [s]. *)
Fixpoint starts (prefix s : jsstring) : bool :=
  match prefix with
  | [] => true
  | p :: prefix' =>
      match s with
      | [] => false
      | c :: s' => (p =? c)%N && starts prefix' s'
      end
  end.

(** [s.replace(/pat/g, rep)] for a pattern that is a literal text, not empty:
    the occurrences are taken from the left and do not overlap.  [skip]
    counts the units of the occurrence found that are still to be passed. *)
Fixpoint replace_from (pat rep : jsstring) (skip : nat) (s : jsstring) : jsstring :=
  match s with
  | [] => []
  | c :: r =>
      match skip with
      | S k => replace_from pat rep k r
      | 0 =>
          if starts pat s then rep ++ replace_from pat rep (List.length pat - 1) r
          else c :: replace_from pat rep 0 r
      end
  end.

Definition replace_all (pat rep : jsstring) (s : jsstring) : jsstring :=
  replace_from pat rep 0 s.

(** [s.replace(/[class]+/g, rep)]: every maximal run of units of the class
    becomes [rep]. *)
Fixpoint replace_runs_from (class : N -> bool) (rep : jsstring) (in_run : bool)
  (s : jsstring) : jsstring :=
  match s with
  | [] => []
  | c :: r =>
      if class c then
        if in_run then replace_runs_from class rep true r
        else rep ++ replace_runs_from class rep true r
      else c :: replace_runs_from class rep false r
  end.

Definition replace_runs (class : N -> bool) (rep : jsstring) (s : jsstring)
  : jsstring :=
  replace_runs_from class rep false s.

Fixpoint trim_start (s : jsstring) : jsstring :=
  match s with
  | [] => []
  | c :: r => if is_space c then trim_start r else s
  end.

Fixpoint trim_end (s : jsstring) : jsstring :=
  match s with
  | [] => []
  | c :: r =>
      match trim_end r with
      | [] => if is_space c then [] else [c]
      | r' => c :: r'
      end
  end.

(** [s.trim()]: the white space of [trim] is the class [\s]. *)
Definition trim (s : jsstring) : jsstring := trim_end (trim_start s).

(** The class [[() _-]]. *)
Definition is_separator (c : N) : bool :=
  existsb (N.eqb c) [40; 41; 32; 95; 45]%N.

(** The class [[1-9a-zA-Z]]: the digit 0 is not in it. *)
Definition is_name_unit (c : N) : bool :=
  (((49 <=? c) && (c <=? 57)) || ((97 <=? c) && (c <=? 122))
   || ((65 <=? c) && (c <=? 90)))%N.

Section Names.

Variable toLowerCase : jsstring -> jsstring.
Variable normalizeNFD : jsstring -> jsstring.

Definition snakeCase (v : jsstring) : jsstring :=
  toLowerCase (replace_runs is_separator (js "_") (trim v)).

Definition cleanName (v : jsstring) : jsstring :=
  let v := replace_all (js "(s)") (js "s") v in
  let v := snakeCase v in
  let v := replace_all (js "u.s.") (js "us") v in
  let v := removeAccent normalizeNFD v in
  let v := map (fun c => if is_name_unit c then c else 95%N) v in
  replace_all (js "__") (js "_") v.

End Names.

End Misc.

(* ================================================================= *)
(** * lib/utils/wikidata.ts and dist/lib/utils/wikidata.js *)
(* ================================================================= *)

Module Wikidata.

Definition ENTITY_PREFIX : string := "http://www.wikidata.org/entity/".
Definition PROPERTY_PREFIX : string := "http://www.wikidata.org/prop/direct/".

(** What a call can throw: [JSON.parse] on a malformed text, a rejected
    [Tp.Helpers.Http.get], an [insert] that breaks the primary key. *)
Inductive exn := SyntaxError | HttpFailure | SqliteConstraint.

Inductive outcome (A : Type) :=
| Returned (a : A)
| Thrown (e : exn).
Arguments Thrown {A} e.

Inductive log_line :=
| LogText (s : string)
| LogExn (e : exn).

(** The state a request works on: the rows of the table [http_requests]
    (url, result), the URLs fetched over the network so far, oldest first, and
    the lines written with [console.log]. *)
Record world := mkWorld {
  http_requests : list (string * string);
  fetched : list string;
  console : list log_line
}.

(** [_getCache('http_requests', 'result', { key: 'url', value: url })] on a
    database that answers the [select]: the row, or [undefined].  A [select]
    that sqlite fails, on which the code rejects, is not among the worlds
    described here. *)
Definition _getCache (url : string) (w : world) : option string :=
  option_map snd (find (fun row => String.eqb (fst row) url) (http_requests w)).

(** [_setCache('http_requests', url, result)]: an [insert]; [url] is the
    primary key of the table. *)
Definition _setCache (url result : string) (w : world) : outcome unit * world :=
  match _getCache url w with
  | Some _ => (Thrown SqliteConstraint, w)
  | None =>
      (Returned tt,
       mkWorld (http_requests w ++ [(url, result)]) (fetched w) (console w))
  end.

Definition log (lines : list log_line) (w : world) : world :=
  mkWorld (http_requests w) (fetched w) (console w ++ lines).

Section Request.

(** The values [JSON.parse] returns, with [null] among them; [JSON_parse] is
    [None] where [JSON.parse] throws. *)
Variable json : Type.
Variable null : json.
Variable JSON_parse : string -> option json.

(** The network: the body the [n]-th GET of the run resolves to, [None] when
    that GET is rejected. *)
Variable Http_get : nat -> string -> option string.

(** The body of the [try] block of [_request]. *)
Definition fetch (url : string) (caching : bool) (w : world)
  : outcome json * world :=
  let w1 := mkWorld (http_requests w) (fetched w ++ [url]) (console w) in
  match Http_get (List.length (fetched w)) url with
  | None => (Thrown HttpFailure, w1)
  | Some result =>
      match (if caching then _setCache url result w1 else (Returned tt, w1)) with
      | (Thrown e, w2) => (Thrown e, w2)
      | (Returned _, w2) =>
          match JSON_parse result with
          | Some parsed => (Returned parsed, w2)
          | None => (Thrown SyntaxError, w2)
          end
      end
  end.

Definition failure_lines (url : string) (e : exn) : list log_line :=
  [LogText ("Failed to retrieve result for: " ++ url)%string; LogExn e].

(** [_request] of lib/utils/wikidata.ts: no further attempt. *)
Definition _request (url : string) (caching : bool) (w : world)
  : outcome json * world :=
  match (if caching then _getCache url w else None) with
  | Some result =>
      match JSON_parse result with
      | Some parsed => (Returned parsed, w)
      | None => (Thrown SyntaxError, w)
      end
  | None =>
      match fetch url caching w with
      | (Returned parsed, w') => (Returned parsed, w')
      | (Thrown e, w') => (Returned null, log (failure_lines url e) w')
      end
  end.

End Request.

(** [_request] of dist/lib/utils/wikidata.js, with its parameter
    [attempts = 1]. *)
Module Dist.
Section Request.

Variable json : Type.
Variable null : json.
Variable JSON_parse : string -> option json.
Variable Http_get : nat -> string -> option string.

Equations? _request (url : string) (caching : bool) (attempts : nat) (w : world)
  : outcome json * world by wf (2 - attempts) lt :=
  _request url caching attempts w
    with (if caching then _getCache url w else None) => {
    | Some result with JSON_parse result => {
        | Some parsed => (Returned parsed, w);
        | None => (Thrown SyntaxError, w) };
    | None with fetch JSON_parse Http_get url caching w => {
        | (Returned parsed, w') => (Returned parsed, w');
        | (Thrown e, w') with lt_dec attempts 2 => {
            | left _ => _request url caching (attempts + 1) w';
            | right _ => (Returned null, log (failure_lines url e) w') } } }.
Proof. destruct attempts as [|[|k]]; simpl; lia. Qed.

End Request.
End Dist.

End Wikidata.

(* ================================================================= *)
(** * JavaScript objects used as maps *)
(* ================================================================= *)

Module JsObject.

(** A plain object, [{}] and what is assigned to it: its own properties in
    order of creation.  Its prototype is [Object.prototype]. *)
Definition t (V : Type) := list (string * V).

(** The names that [Object.prototype] defines, which every plain object
    inherits. *)
Definition prototype_names : list string :=
  ["constructor"; "__defineGetter__"; "__defineSetter__"; "hasOwnProperty";
   "__lookupGetter__"; "__lookupSetter__"; "isPrototypeOf";
   "propertyIsEnumerable"; "toString"; "valueOf"; "__proto__"; "toLocaleString"].

Definition inherited (key : string) : bool :=
  existsb (String.eqb key) prototype_names.

(** What [obj[key]] reads: an own property, the member of [Object.prototype]
    that the key names, or [undefined]. *)
Inductive slot (V : Type) :=
| Own (v : V)
| Proto (key : string)
| Absent.
Arguments Proto {V} key.
Arguments Absent {V}.

Section Ops.
Context {V : Type}.

(** [obj.hasOwnProperty(key)]. *)
Definition own (obj : t V) (key : string) : bool :=
  existsb (fun kv => String.eqb (fst kv) key) obj.

(** [key in obj]: an own key or an inherited name. *)
Definition has (obj : t V) (key : string) : bool :=
  own obj key || inherited key.

(** The own property [key] of [obj], [None] when it has none. *)
Definition get (obj : t V) (key : string) : option V :=
  option_map snd (find (fun kv => String.eqb (fst kv) key) obj).

(** [obj[key]]: the own property first, then the prototype. *)
Definition read (obj : t V) (key : string) : slot V :=
  match get obj key with
  | Some v => Own v
  | None => if inherited key then Proto key else Absent
  end.

(** [obj[key] = v] for a key that [obj] owns or does not inherit: an existing
    key keeps its place. *)
Fixpoint set (obj : t V) (key : string) (v : V) : t V :=
  match obj with
  | [] => [(key, v)]
  | (k, x) :: rest =>
      if String.eqb k key then (k, v) :: rest else (k, x) :: set rest key v
  end.

Definition is_digit (c : ascii) : bool :=
  let n := N_of_ascii c in ((48 <=? n) && (n <=? 57))%N.

Fixpoint digits (acc : N) (s : string) : option N :=
  match s with
  | EmptyString => Some acc
  | String c r =>
      if is_digit c then digits (acc * 10 + (N_of_ascii c - 48))%N r else None
  end.

(** A key is an array index when it is the canonical decimal writing of an
    integer below 2^32 - 1. *)
Definition array_index (key : string) : option N :=
  match key with
  | EmptyString => None
  | String c r =>
      if Ascii.eqb c "0"%char then
        match r with EmptyString => Some 0%N | _ => None end
      else
        match digits 0 key with
        | Some n => if (n <? 4294967295)%N then Some n else None
        | None => None
        end
  end.

Fixpoint insert_index (n : N) (kv : string * V) (l : list (N * (string * V)))
  : list (N * (string * V)) :=
  match l with
  | [] => [(n, kv)]
  | (m, x) :: rest =>
      if (n <=? m)%N then (n, kv) :: l else (m, x) :: insert_index n kv rest
  end.

Definition indexed (obj : t V) : list (N * (string * V)) :=
  fold_right
    (fun kv acc =>
       match array_index (fst kv) with
       | Some n => insert_index n kv acc
       | None => acc
       end) [] obj.

Definition named (obj : t V) : list (string * V) :=
  filter (fun kv => match array_index (fst kv) with Some _ => false | None => true end) obj.

(** [Object.entries(obj)]: the array indices in increasing order, then the
    other keys in order of creation. *)
Definition entries (obj : t V) : list (string * V) :=
  map snd (indexed obj) ++ named obj.

End Ops.
End JsObject.

(* ================================================================= *)
(** * lib/converter.ts *)
(* ================================================================= *)

Module Converter.

Import Wikidata.

(** ** The tree of sparqljs *)

Inductive termType := NamedNode | Variable_ | Literal | BlankNode | Wildcard.

Definition termType_eqb (a b : termType) : bool :=
  match a, b with
  | NamedNode, NamedNode | Variable_, Variable_ | Literal, Literal
  | BlankNode, BlankNode | Wildcard, Wildcard => true
  | _, _ => false
  end.

Record term := mkTerm { term_type : termType; value : string }.

(** The predicate of a triple is a term or a property path; a path has
    neither [termType] nor [value]. *)
Inductive predicate_t :=
| PTerm (t : term)
| PropertyPath (pathType : string) (items : list term).

Definition predicate_termType (p : predicate_t) : option termType :=
  match p with PTerm t => Some (term_type t) | PropertyPath _ _ => None end.

Definition predicate_value (p : predicate_t) : option string :=
  match p with PTerm t => Some (value t) | PropertyPath _ _ => None end.

Record triple := mkTriple {
  subject : term;
  predicate : predicate_t;
  object : term
}.

Inductive expression :=
| ETerm (t : term)
| EAggregate (distinct : bool) (aggregation : string) (e : expression)
| EOperation (operator : string) (args : list expression)
| EOther.

Inductive pattern :=
| Bgp (triples : list triple)
| Union (patterns : list pattern)
| Filter (e : expression)
| OtherPattern (type : string).

Record grouping := mkGrouping { g_expression : expression }.

(** An entry of [parsed.variables]: a term (a variable or the wildcard) or an
    [{ expression, variable }] pair, which has no [value]. *)
Inductive variable_entry :=
| VTerm (t : term)
| VExpression (e : expression) (v : term).

Record SelectQuery := mkSelectQuery {
  variables : option (list variable_entry);
  where_ : option (list pattern);
  group : option (list grouping);
  having : option (list expression)
}.

(** ** ThingTalk types and syntax *)

(** A type of the schema; [TMember] is the member of [Object.prototype] that
    a lookup in the map of types gives for an inherited name: it is found
    where a type is expected, and is neither an array nor an entity type. *)
Inductive Type_ :=
| TArray (elem : Type_)
| TEntity (type : string)
| TOther (name : string)
| TMember (key : string).

(** A name read from a map of the schema: the text stored under the key, or
    the member of [Object.prototype] that an inherited key names. *)
Inductive Name :=
| Text (s : string)
| Member (key : string).
Coercion Text : string >-> Name.

(** [Some "entity"] is read as a name where a name is expected. *)
Arguments Some {A} & a.

(** [parseFloat(text)], kept as written. *)
Inductive number := parseFloat (text : string).

Inductive Value :=
| Entity (v : string) (type : string) (display : option string)
| VarRef (name : option Name)
| Number (n : number)
| ComputationValue (op : string) (operands : list Value).

Inductive BooleanExpression :=
| AtomBooleanExpression (name : option Name) (operator : string) (v : Value)
| AndBooleanExpression (operands : list BooleanExpression)
| OrBooleanExpression (operands : list BooleanExpression)
| ComputeBooleanExpression (lhs : Value) (operator : string) (rhs : Value).

Inductive Expression :=
| InvocationExpression (domain : option Name)
| FilterExpression (e : Expression) (f : BooleanExpression)
| ProjectionExpression (e : Expression) (names : list (option Name))
| BooleanQuestionExpression (e : Expression) (b : BooleanExpression)
| ChainExpression (es : list Expression).

(** A program holds its expression statements. *)
Inductive Program := mkProgram (statements : list Expression).

Definition baseQuery (domain : option Name) : Expression :=
  InvocationExpression domain.

Definition makeProgram (e : Expression) : Program :=
  match e with
  | ChainExpression _ => mkProgram [e]
  | _ => mkProgram [ChainExpression [e]]
  end.

(** ** Tables *)

Record Projection := mkProjection { property : option Name; variable : string }.

Record Table := mkTable {
  domain : option Name;
  projections : list Projection;
  filters : list BooleanExpression;
  verifications : list BooleanExpression
}.

(** ** Errors and the converter's state *)

Inductive error :=
| AssertionError
| TypeError
| ParserError (message : string)
| UnsupportedValueType (t : option Type_)
| MultipleSubject (patterns : list pattern)
| UnsupportedFilter (w : pattern)
| UnsupportedGroupBy
| NoMatchingVariable
| UnsupportedHaving (h : expression)
| UnsupportedVariableType (v : variable_entry)
| NotSupportedByThingTalk (sparql : string)
| TodoHandleFilters.

Inductive result (A : Type) :=
| Ok (a : A)
| Err (e : error).
Arguments Err {A} e.

Record state := mkState {
  _keywords : list string;
  _tables : JsObject.t Table
}.

(** A method of the converter: it may throw, and what it did to the fields
    before stays done. *)
Definition M (A : Type) := state -> result A * state.

Definition ret {A : Type} (a : A) : M A := fun st => (Ok a, st).

Definition throw {A : Type} (e : error) : M A := fun st => (Err e, st).

Definition bind {A B : Type} (m : M A) (k : A -> M B) : M B :=
  fun st =>
    match m st with
    | (Ok a, st') => k a st'
    | (Err e, st') => (Err e, st')
    end.

Declare Scope conv_scope.
Delimit Scope conv_scope with conv.
Notation "x <- m ;; k" := (bind m (fun x => k))
  (at level 61, m at next level, right associativity) : conv_scope.
Notation "m ;;; k" := (bind m (fun _ => k))
  (at level 61, right associativity) : conv_scope.
Open Scope conv_scope.

Definition assert (b : bool) : M unit :=
  if b then ret tt else throw AssertionError.

Definition when (b : bool) (m : M unit) : M unit :=
  if b then m else ret tt.

(** [for (const x of l) body(x)] with an accumulator. *)
Fixpoint for_of {A B : Type} (body : A -> B -> M B) (l : list A) (acc : B)
  : M B :=
  match l with
  | [] => ret acc
  | x :: rest => acc' <- body x acc ;; for_of body rest acc'
  end.

Definition for_each {A : Type} (body : A -> M unit) (l : list A) : M unit :=
  for_of (fun x _ => body x) l tt.

(** ** Strings *)

Fixpoint startsWith (s prefix : string) : bool :=
  match prefix with
  | EmptyString => true
  | String c p =>
      match s with
      | EmptyString => false
      | String d r => Ascii.eqb c d && startsWith r p
      end
  end.

(** [s.slice(n)] for [n >= 0]. *)
Fixpoint slice (n : nat) (s : string) : string :=
  match n with
  | 0 => s
  | S k => match s with EmptyString => EmptyString | String _ r => slice k r end
  end.

Definition includes (l : list string) (v : string) : bool :=
  existsb (String.eqb v) l.

Fixpoint join (sep : string) (l : list string) : string :=
  match l with
  | [] => EmptyString
  | x :: r =>
      match r with
      | [] => x
      | _ :: _ => (x ++ sep ++ join sep r)%string
      end
  end.

(** A string in a condition: the empty string counts as false. *)
Definition truthy (s : option string) : bool :=
  match s with
  | Some EmptyString | None => false
  | Some _ => true
  end.

(** ** The class WikiSchema *)

Record WikiSchema := mkWikiSchema {
  _tableMap : JsObject.t string;
  _propertyMap : JsObject.t string;
  _propertyTypeMap : JsObject.t Type_
}.

(** What a lookup in a map of names gives, [None] being [undefined]. *)
Definition name_read (r : JsObject.slot string) : option Name :=
  match r with
  | JsObject.Own s => Some (Text s)
  | JsObject.Proto key => Some (Member key)
  | JsObject.Absent => None
  end.

Definition type_read (r : JsObject.slot Type_) : option Type_ :=
  match r with
  | JsObject.Own t => Some t
  | JsObject.Proto key => Some (TMember key)
  | JsObject.Absent => None
  end.

Definition getTable (schema : WikiSchema) (qid : string) : option Name :=
  name_read (JsObject.read (_tableMap schema) qid).

Definition getProperty (schema : WikiSchema) (pid : string) : option Name :=
  name_read (JsObject.read (_propertyMap schema) pid).

Definition getPropertyType (schema : WikiSchema) (pid : string) : option Type_ :=
  type_read (JsObject.read (_propertyTypeMap schema) pid).

(** ** The class SPARQLToThingTalkConverter *)

Section SPARQLToThingTalkConverter.

(** The fields set by the constructor and the packages they come from: the
    schema, the parser of sparqljs, the label lookup of the knowledge base
    ([WikidataUtils.getLabel], [None] for [null]), the tokenizer of
    genie-toolkit (its [rawTokens]), [closest] of fastest-levenshtein
    ([None] for [undefined]) and the global [isNaN] on a string. *)
Variable _schema : WikiSchema.
Variable _parser_parse : string -> result SelectQuery.
Variable _wikidata_getLabel : string -> option string.
Variable _tokenizer_rawTokens : string -> list string.
Variable closest : string -> list string -> option string.
Variable isNaN : string -> bool.

Definition get_tables : M (JsObject.t Table) := fun st => (Ok (_tables st), st).

Definition set_tables (ts : JsObject.t Table) : M unit :=
  fun st => (Ok tt, mkState (_keywords st) ts).

Definition get_keywords : M (list string) := fun st => (Ok (_keywords st), st).

Definition _initTable (subject : string) : M unit :=
  ts <- get_tables ;;
  if JsObject.has ts subject then ret tt
  else set_tables (JsObject.set ts subject (mkTable (Some (Text "entity")) [] [] [])).

(** [this._tables[subject].field.push(x)], the table changed by [f]: what the
    object inherits under that name is no table and has no such array, so
    the call throws. *)
Definition update_table (subject : string) (f : Table -> Table) : M unit :=
  ts <- get_tables ;;
  match JsObject.read ts subject with
  | JsObject.Own T => set_tables (JsObject.set ts subject (f T))
  | JsObject.Proto _ | JsObject.Absent => throw TypeError
  end.

Definition _addFilter (subject : string) (filter : BooleanExpression) : M unit :=
  _initTable subject ;;;
  update_table subject
    (fun T => mkTable (domain T) (projections T) (filters T ++ [filter]) (verifications T)).

Definition _addProjection (subject : string) (projection : Projection) : M unit :=
  _initTable subject ;;;
  update_table subject
    (fun T => mkTable (domain T) (projections T ++ [projection]) (filters T) (verifications T)).

Definition _addVerification (subject : string) (verification : BooleanExpression) : M unit :=
  _initTable subject ;;;
  update_table subject
    (fun T => mkTable (domain T) (projections T) (filters T) (verifications T ++ [verification])).

(** [this._tables[subject].domain = this._schema.getTable(domain)]: under an
    inherited name the assignment puts the property on that member of
    [Object.prototype], and no field of the converter changes.  (Under
    [__proto__] the member is [Object.prototype] itself; the names that
    objects inherit are taken as [JsObject.prototype_names] gives them, as
    they are before such an assignment.) *)
Definition _setDomain (subject : string) (d : string) : M unit :=
  _initTable subject ;;;
  ts <- get_tables ;;
  match JsObject.read ts subject with
  | JsObject.Own T =>
      set_tables
        (JsObject.set ts subject
           (mkTable (getTable _schema d) (projections T) (filters T) (verifications T)))
  | JsObject.Proto _ => ret tt
  | JsObject.Absent => throw TypeError
  end.

(** [while (valueType instanceof Type.Array) valueType = valueType.elem]. *)
Fixpoint elemType (t : Type_) : Type_ :=
  match t with
  | TArray elem => elemType elem
  | _ => t
  end.

Definition _toThingTalkValue (v : string) (propertyType : option Type_) : M Value :=
  let valueType := option_map elemType propertyType in
  match valueType with
  | Some (TEntity type) =>
      assert (startsWith v ENTITY_PREFIX) ;;;
      let v := slice (String.length ENTITY_PREFIX) v in
      let wikidataLabel := _wikidata_getLabel v in
      assert (truthy wikidataLabel) ;;;
      keywords <- get_keywords ;;
      let display :=
        match wikidataLabel with
        | Some label => closest label keywords
        | None => None
        end in
      ret (Entity v type display)
  | _ => throw (UnsupportedValueType valueType)
  end.

Definition is_array (t : option Type_) : bool :=
  match t with Some (TArray _) => true | _ => false end.

(** [_atomFilter(property, value)]; [property] is [undefined] when it was read
    from a property path. *)
Definition _atomFilter (property : option string) (v : string) : M BooleanExpression :=
  match property with
  | None => throw TypeError
  | Some property =>
      let '(propertyLabel, propertyType) :=
        if String.eqb property "id" then
          (Some (Text property), Some (TEntity "org.wikidata:entity"))
        else
          let property := slice (String.length PROPERTY_PREFIX) property in
          (getProperty _schema property, getPropertyType _schema property) in
      tv <- _toThingTalkValue v propertyType ;;
      ret (AtomBooleanExpression propertyLabel
             (if is_array propertyType then "contains" else "==") tv)
  end.

Definition _aggregateFilter (aggregation : string) (operands : list (option Name))
  (operator : string) (n : number) : BooleanExpression :=
  let operator :=
    if String.eqb operator ">" || String.eqb operator "<"
    then (operator ++ "=")%string else operator in
  ComputeBooleanExpression
    (ComputationValue aggregation (map VarRef operands)) operator (Number n).

Definition is_type (t : term) (ty : termType) : bool := termType_eqb (term_type t) ty.

(** [triple.predicate.termType === 'NamedNode' && predicate === `${PROPERTY_PREFIX}P31`]. *)
Definition is_P31 (p : predicate_t) : bool :=
  match predicate_termType p with
  | Some ty => termType_eqb ty NamedNode
  | None => false
  end
  && match predicate_value p with
     | Some v => String.eqb v (PROPERTY_PREFIX ++ "P31")%string
     | None => false
     end.

(** [if (!(subject in filtersBySubject)) filtersBySubject[subject] = [];
    filtersBySubject[subject].push(filter)]: the array is created for a name
    that the object neither owns nor inherits; what it inherits has no
    [push], and the call throws. *)
Definition push_filter (filtersBySubject : JsObject.t (list BooleanExpression))
  (subject : string) (filter : BooleanExpression)
  : M (JsObject.t (list BooleanExpression)) :=
  let filtersBySubject :=
    if JsObject.has filtersBySubject subject then filtersBySubject
    else JsObject.set filtersBySubject subject [] in
  match JsObject.read filtersBySubject subject with
  | JsObject.Own l => ret (JsObject.set filtersBySubject subject (l ++ [filter]))
  | JsObject.Proto _ | JsObject.Absent => throw TypeError
  end.

(** The part of the loop body of [_convertTriples] after the [continue]. *)
Definition projection_and_verification (t : triple) : M unit :=
  let s := value (subject t) in
  let o := value (object t) in
  when (is_type (object t) Variable_)
    (match predicate_value (predicate t) with
     | None => throw TypeError
     | Some p =>
         let property := getProperty _schema (slice (String.length PROPERTY_PREFIX) p) in
         _addProjection s (mkProjection property o)
     end) ;;;
  when (is_type (subject t) NamedNode && is_type (object t) NamedNode)
    (f <- _atomFilter (predicate_value (predicate t)) o ;; _addVerification s f).

(** One round of the loop of [_convertTriples]. *)
Definition convertTriple (t : triple)
  (filtersBySubject : JsObject.t (list BooleanExpression))
  : M (JsObject.t (list BooleanExpression)) :=
  let s := value (subject t) in
  let o := value (object t) in
  when (is_type (subject t) NamedNode && startsWith s ENTITY_PREFIX)
    (f <- _atomFilter (Some "id") s ;; _addFilter s f) ;;;
  if is_type (subject t) Variable_ && is_type (object t) NamedNode then
    if is_P31 (predicate t) then
      _setDomain s (slice (String.length ENTITY_PREFIX) o) ;;;
      ret filtersBySubject
    else
      f <- _atomFilter (predicate_value (predicate t)) o ;;
      filtersBySubject <- push_filter filtersBySubject s f ;;
      projection_and_verification t ;;;
      ret filtersBySubject
  else
    projection_and_verification t ;;;
    ret filtersBySubject.

Definition conjunction (l : list BooleanExpression) : BooleanExpression :=
  match l with
  | [f] => f
  | _ => AndBooleanExpression l
  end.

Definition _convertTriples (triples : list triple) : M (JsObject.t BooleanExpression) :=
  filtersBySubject <- for_of convertTriple triples [] ;;
  ret (fold_left
         (fun converted kv => JsObject.set converted (fst kv) (conjunction (snd kv)))
         (JsObject.entries filtersBySubject) []).

(** The inner loop of [_parseUnion] over the subjects of one branch. *)
Definition union_subject (where_patterns : list pattern)
  (kv : string * BooleanExpression)
  (acc : option string * list BooleanExpression)
  : M (option string * list BooleanExpression) :=
  let '(existedSubject, operands) := acc in
  existedSubject <-
    match existedSubject with
    | Some (String _ _ as existed) =>
        if negb (String.eqb (fst kv) existed)
        then throw (MultipleSubject where_patterns)
        else ret existedSubject
    | Some EmptyString | None => ret (Some (fst kv))
    end ;;
  ret (existedSubject, operands ++ [snd kv]).

Definition union_branch (where_patterns : list pattern) (p : pattern)
  (acc : option string * list BooleanExpression)
  : M (option string * list BooleanExpression) :=
  match p with
  | Bgp triples =>
      filtersBySubject <- _convertTriples triples ;;
      for_of (union_subject where_patterns) (JsObject.entries filtersBySubject) acc
  | _ => throw AssertionError
  end.

(** The key that a subject, a text or [undefined], is turned into when it
    indexes an object. *)
Definition property_key (s : option string) : string :=
  match s with Some s => s | None => "undefined" end.

Definition _parseUnion (where_patterns : list pattern) : M unit :=
  acc <- for_of (union_branch where_patterns) where_patterns (None, []) ;;
  _addFilter (property_key (fst acc)) (OrBooleanExpression (snd acc)).

Definition _parseBasic (triples : list triple) : M unit :=
  filtersBySubject <- _convertTriples triples ;;
  for_each (fun kv => _addFilter (fst kv) (snd kv)) (JsObject.entries filtersBySubject).

Definition _parseWhereClause (w : pattern) : M unit :=
  match w with
  | Bgp triples => _parseBasic triples
  | Union patterns => _parseUnion patterns
  | _ => throw (UnsupportedFilter w)
  end.

Definition _parseHavingClause (h : expression) (g : grouping) : M unit :=
  match g_expression g with
  | ETerm gt =>
      assert (is_type gt Variable_) ;;;
      let s := value gt in
      ts <- get_tables ;;
      if negb (JsObject.has ts s) then throw UnsupportedGroupBy
      else
        match h with
        | EOperation operator args =>
            assert (Nat.eqb (List.length args) 2) ;;;
            match args with
            | [lhs; rhs] =>
                match lhs with
                | EAggregate distinct aggregation (ETerm v) =>
                    assert (negb distinct && String.eqb aggregation "count"
                            && is_type v Variable_) ;;;
                    match JsObject.read ts s with
                    | JsObject.Own T =>
                        match find (fun proj => String.eqb (variable proj) (value v))
                                   (projections T) with
                        | None => throw NoMatchingVariable
                        | Some projection =>
                            match rhs with
                            | ETerm r =>
                                assert (is_type r Literal && negb (isNaN (value r))) ;;;
                                _addFilter s
                                  (_aggregateFilter "count" [property projection]
                                     operator (parseFloat (value r)))
                            | _ => throw AssertionError
                            end
                        end
                    | JsObject.Proto _ | JsObject.Absent => throw TypeError
                    end
                | _ => throw AssertionError
                end
            | _ => throw AssertionError
            end
        | _ => throw (UnsupportedHaving h)
        end
  | _ => throw AssertionError
  end.

(** The fields as [_reset(keywords)] leaves them. *)
Definition reset_state (keywords : list string) : state :=
  mkState (map (fun keyword => join " " (_tokenizer_rawTokens keyword)) keywords) [].

Definition _reset (keywords : list string) : M unit :=
  fun _ => (Ok tt, reset_state keywords).

(** The names pushed on [projections] for one table. *)
Definition selected (vars : list string) (s : string) (T : Table)
  : list (option Name) :=
  (if includes vars s then [Some (Text "id")] else [])
  ++ map property (filter (fun p => includes vars (variable p)) (projections T)).

Definition only_id (names : list (option Name)) : bool :=
  match names with
  | [Some (Text name)] => String.eqb name "id"
  | _ => false
  end.

(** One round of the loop of [convert] over [Object.entries(this._tables)];
    it reads no field of the converter. *)
Definition table_query (vars : list string) (kv : string * Table)
  (queries : list Expression) : result (list Expression) :=
  let '(s, T) := kv in
  let table := baseQuery (domain T) in
  let table :=
    match filters T with
    | [] => table
    | _ :: _ => FilterExpression table (AndBooleanExpression (filters T))
    end in
  let names := selected vars s T in
  match verifications T with
  | v :: more =>
      if Nat.eqb (List.length names) 0 then
        let verification :=
          match more with
          | [] => v
          | _ :: _ => AndBooleanExpression (verifications T)
          end in
        Ok (queries ++ [BooleanQuestionExpression table verification])
      else Err AssertionError
  | [] =>
      match names with
      | [] => Ok queries
      | _ :: _ =>
          let table :=
            if only_id names then table else ProjectionExpression table names in
          Ok (queries ++ [table])
      end
  end.

Fixpoint table_queries (vars : list string) (l : list (string * Table))
  (queries : list Expression) : result (list Expression) :=
  match l with
  | [] => Ok queries
  | kv :: rest =>
      match table_query vars kv queries with
      | Ok queries' => table_queries vars rest queries'
      | Err e => Err e
      end
  end.

(** The loop of [convert] over [parsed.variables ?? []]. *)
Fixpoint read_variables (l : list variable_entry) (vars : list string)
  : result (list string) :=
  match l with
  | [] => Ok vars
  | v :: rest =>
      match v with
      | VTerm t =>
          if negb (String.eqb (value t) "*") then read_variables rest (vars ++ [value t])
          else Err (UnsupportedVariableType v)
      | VExpression _ _ => Err (UnsupportedVariableType v)
      end
  end.

Definition from_option {A : Type} (o : option (list A)) : list A :=
  match o with Some l => l | None => [] end.

(** The part of [convert] that folds the clauses of the parsed query. *)
Definition parse_clauses (parsed : SelectQuery) : M unit :=
  for_each _parseWhereClause (from_option (where_ parsed)) ;;;
  match having parsed, group parsed with
  | Some hs, Some gs =>
      assert (Nat.eqb (List.length gs) 1) ;;;
      match gs with
      | g :: _ => for_each (fun clause => _parseHavingClause clause g) hs
      | [] => throw AssertionError
      end
  | _, _ => ret tt
  end.

(** The part of [convert] that builds the program from the tables. *)
Definition generate (sparql : string) (parsed : SelectQuery) (ts : JsObject.t Table)
  : result Program :=
  match read_variables (from_option (variables parsed)) [] with
  | Err e => Err e
  | Ok vars =>
      match table_queries vars (JsObject.entries ts) [] with
      | Err e => Err e
      | Ok [q] => Ok (makeProgram q)
      | Ok _ => Err (NotSupportedByThingTalk sparql)
      end
  end.

Definition convert (sparql : string) (keywords : list string) : M Program :=
  _reset keywords ;;;
  match _parser_parse sparql with
  | Err e => throw e
  | Ok parsed =>
      parse_clauses parsed ;;;
      ts <- get_tables ;;
      fun st => (generate sparql parsed ts, st)
  end.

End SPARQLToThingTalkConverter.

End Converter.

(* ================================================================= *)
(** * lib/converter2/helpers/filter.ts *)
(* ================================================================= *)

Module FilterConverter.

(** [convert(filter)]: it logs the converter and throws. *)
Definition convert (filter : Converter.expression)
  : Converter.result (list (string * list Converter.BooleanExpression)) :=
  Converter.Err Converter.TodoHandleFilters.

End FilterConverter.

(* ================================================================= *)
(** * lib/utils/wikidata.ts: the accessors *)
(* ================================================================= *)

Module WikidataUtils.

Import Wikidata.

Definition URL : string := "https://query.wikidata.org/sparql".

(** [url.trim().replace(/\s+/g, ' ')]. *)
Definition normalizeURL (url : Misc.jsstring) : Misc.jsstring :=
  Misc.replace_runs Misc.is_space (Misc.js " ") (Misc.trim url).

(** The values of [JSON.parse].  In this module the text of a JavaScript
    string is written with Rocq's strings, a character for a code unit. *)
Inductive JSON :=
| JNull
| JBoolean (b : bool)
| JNumber (text : string)
| JString (s : string)
| JArray (items : list JSON)
| JObject (members : JsObject.t JSON).

(** A value of the program: [None] is [undefined]. *)
Definition jsval := option JSON.

Definition null : jsval := Some JNull.

(** What an accessor throws: what [_request] threw, a [TypeError], or the
    error of wikibase-sdk for an id that it does not take for an entity id. *)
Inductive raised :=
| Request (e : exn)
| TypeError
| InvalidEntityId.

Inductive completion (A : Type) :=
| Done (a : A)
| Raise (r : raised).
Arguments Raise {A} r.

Definition W (A : Type) := world -> completion A * world.

Definition ret {A : Type} (a : A) : W A := fun w => (Done a, w).

Definition raise {A : Type} (r : raised) : W A := fun w => (Raise r, w).

Definition bind {A B : Type} (m : W A) (k : A -> W B) : W B :=
  fun w =>
    match m w with
    | (Done a, w') => k a w'
    | (Raise r, w') => (Raise r, w')
    end.

Definition pure {A : Type} (c : completion A) : W A := fun w => (c, w).

Definition console_log (text : string) : W unit :=
  fun w => (Done tt, log [LogText text] w).

(** The characters of a text, each as a text. *)
Fixpoint characters (s : string) : list JSON :=
  match s with
  | EmptyString => []
  | String c r => JString (String c EmptyString) :: characters r
  end.

Definition element (l : list JSON) (key : string) : jsval :=
  match JsObject.array_index key with
  | Some n => nth_error l (N.to_nat n)
  | None => None
  end.

(** [v.key] and [v[0]], for a key that is an index or a name that no
    prototype defines: reading a property of [null] or [undefined] throws. *)
Definition get_prop (v : jsval) (key : string) : completion jsval :=
  match v with
  | None | Some JNull => Raise TypeError
  | Some (JObject members) => Done (JsObject.get members key)
  | Some (JArray items) => Done (element items key)
  | Some (JString s) => Done (element (characters s) key)
  | Some (JBoolean _) | Some (JNumber _) => Done None
  end.

(** [Object.values(v)]. *)
Definition Object_values (v : jsval) : completion (list JSON) :=
  match v with
  | None | Some JNull => Raise TypeError
  | Some (JObject members) => Done (map snd (JsObject.entries members))
  | Some (JArray items) => Done items
  | Some (JString s) => Done (characters s)
  | Some (JBoolean _) | Some (JNumber _) => Done []
  end.

(** [v.slice(n)]: texts and arrays have the method. *)
Definition slice (n : nat) (v : jsval) : completion JSON :=
  match v with
  | Some (JString s) => Done (JString (Converter.slice n s))
  | Some (JArray items) => Done (JArray (skipn n items))
  | _ => Raise TypeError
  end.

Definition cbind {A B : Type} (c : completion A) (k : A -> completion B)
  : completion B :=
  match c with
  | Done a => k a
  | Raise r => Raise r
  end.

Fixpoint map_values {A : Type} (f : JSON -> completion A) (l : list JSON)
  : completion (list A) :=
  match l with
  | [] => Done []
  | x :: rest =>
      cbind (f x) (fun y => cbind (map_values f rest) (fun ys => Done (y :: ys)))
  end.

(** [res.map(f)]: only an array has the method. *)
Definition array_map {A : Type} (f : JSON -> completion A) (res : jsval)
  : completion (list A) :=
  match res with
  | Some (JArray items) => map_values f items
  | _ => Raise TypeError
  end.

(** [r.v.value.slice(ENTITY_PREFIX.length)]. *)
Definition entity_of (r : JSON) : completion JSON :=
  cbind (get_prop (Some r) "v") (fun v =>
  cbind (get_prop v "value") (fun value =>
  slice (String.length ENTITY_PREFIX) value)).

(** [domains.includes(text)]. *)
Definition includes (l : list JSON) (text : string) : bool :=
  existsb (fun v => match v with JString s => String.eqb s text | _ => false end) l.

Definition is_digit (c : ascii) : bool :=
  let n := N_of_ascii c in ((48 <=? n) && (n <=? 57))%N.

(** [/[P|Q][0-9]+/.test(id)]: somewhere in [id] one of [P], [|] and [Q] comes
    just before a digit. *)
Fixpoint test_id (id : string) : bool :=
  match id with
  | EmptyString => false
  | String c r =>
      ((Ascii.eqb c "P" || Ascii.eqb c "|" || Ascii.eqb c "Q")%char
       && match r with String d _ => is_digit d | EmptyString => false end)
      || test_id r
  end.

Section Accessors.

(** [JSON.parse], the network, [encodeURIComponent] and the URL that
    [wdk.getEntities] of wikibase-sdk builds for the ids and the props asked
    for, in English; it is [None] when wikibase-sdk throws instead, as it does
    for an id that is not an entity id from end to end. *)
Variable JSON_parse : string -> option JSON.
Variable Http_get : nat -> string -> option string.
Variable encodeURIComponent : Misc.jsstring -> string.
Variable getEntities : list string -> string -> option string.

Definition _request (url : string) (caching : bool) : W JSON :=
  fun w =>
    match Wikidata._request JNull JSON_parse Http_get url caching w with
    | (Returned v, w') => (Done v, w')
    | (Thrown e, w') => (Raise (Request e), w')
    end.

Definition query_url (sparql : string) : string :=
  (URL ++ "?query=" ++ encodeURIComponent (normalizeURL (Misc.js sparql)))%string.

Definition _query (sparql : string) : W jsval :=
  bind (_request (query_url sparql) true) (fun result =>
  pure (cbind (get_prop (Some result) "results") (fun results =>
        get_prop results "bindings"))).

Definition getPropertyValue (entityId propertyId : string) : W (list JSON) :=
  let sparql :=
    ("SELECT ?v WHERE { wd:" ++ entityId ++ " wdt:" ++ propertyId ++ " ?v. }")%string in
  bind (_query sparql) (fun res => pure (array_map entity_of res)).

Definition nl : string := String (ascii_of_nat 10) EmptyString.

(** The query of [getDomain] that counts the instances of each domain. *)
Definition count_query (entityId : string) : string :=
  ("SELECT ?v (COUNT(?s) as ?count) WHERE {" ++ nl
   ++ "            wd:" ++ entityId ++ " wdt:P31 ?v." ++ nl
   ++ "            ?s wdt:P31 ?v." ++ nl
   ++ "        } GROUP BY ?v ORDER BY DESC(?count)")%string.

Definition getDomain (entityId : string) : W JSON :=
  bind (getPropertyValue entityId "P31") (fun domains =>
  match domains with
  | [] => ret JNull
  | [d] => ret d
  | _ =>
      if includes domains "Q5" then ret (JString "Q5")
      else if includes domains "Q16521" then ret (JString "Q16521")
      else
        bind (_query (count_query entityId)) (fun res =>
        pure (cbind (get_prop res "0") (fun first => 
              match first with
              | Some r => entity_of r
              | None => Raise TypeError
              end)))
  end).

(** [Object.values(result.entities)[0].labels.en.value]. *)
Definition label_of (result : JSON) : completion jsval :=
  cbind (get_prop (Some result) "entities") (fun entities =>
  cbind (Object_values entities) (fun values =>
  cbind (get_prop (nth_error values 0) "labels") (fun labels =>
  cbind (get_prop labels "en") (fun en =>
  get_prop en "value")))).

Definition getLabel (id : string) : W jsval :=
  if negb (test_id id) then ret null
  else
    match getEntities [id] "labels" with
    | None => raise InvalidEntityId
    | Some url =>
        bind (_request url true) (fun result =>
        match label_of result with
        | Done v => ret v
        | Raise _ =>
            bind (console_log ("Failed to retrieve label for " ++ id)%string)
                 (fun _ => ret null)
        end)
    end.

End Accessors.

End WikidataUtils.

(* ================================================================= *)
(** * A small schema, knowledge base and set of queries *)
(* ================================================================= *)

Module Fixture.

Import Wikidata Converter.

(** Word tools for the similarity: lower case on the basic Latin letters, no
    decomposition, three stop words, no stemming. *)
Definition lower (s : Misc.jsstring) : Misc.jsstring :=
  map (fun c => if ((65 <=? c) && (c <=? 90))%N then (c + 32)%N else c) s.

Definition stopwords : list Misc.jsstring := map Misc.js ["the"; "of"; "a"].

Definition without_stopwords (l : list Misc.jsstring) : list Misc.jsstring :=
  filter (fun t => negb (Misc.includes stopwords t)) l.

Definition same (s : Misc.jsstring) : Misc.jsstring := s.

(** Terms. *)
Definition var (name : string) : term := mkTerm Variable_ name.
Definition wd (qid : string) : term := mkTerm NamedNode (ENTITY_PREFIX ++ qid)%string.
Definition wdt (pid : string) : predicate_t :=
  PTerm (mkTerm NamedNode (PROPERTY_PREFIX ++ pid)%string).
Definition lit (text : string) : term := mkTerm Literal text.

Definition schema : WikiSchema :=
  mkWikiSchema
    [("Q6256", "country"); ("Q515", "city")]
    [("P17", "country"); ("P30", "continent"); ("P36", "capital")]
    [("P17", TEntity "org.wikidata:p_country");
     ("P30", TArray (TEntity "org.wikidata:p_continent"));
     ("P36", TEntity "org.wikidata:p_capital")].

Definition labels : JsObject.t string :=
  [("Q30", "United States of America"); ("Q16", "Canada");
   ("Q46", "Europe"); ("Q142", "France")].

Definition getLabel (id : string) : option string := JsObject.get labels id.

Definition rawTokens (keyword : string) : list string := [keyword].

(** The keyword equal to the label, else the first keyword. *)
Definition nearest (label : string) (keywords : list string) : option string :=
  match find (String.eqb label) keywords with
  | Some k => Some k
  | None => hd_error keywords
  end.

(** [isNaN] on the texts of the fixture: a text of digits is a number. *)
Definition notNumber (text : string) : bool :=
  match JsObject.digits 0 text with
  | Some _ => false
  | None => true
  end.

Definition select (vars : list string) (w : list pattern) : SelectQuery :=
  mkSelectQuery (Some (map (fun v => VTerm (var v)) vars)) (Some w) None None.

(** Two selected tables. *)
Definition two_tables : SelectQuery :=
  select ["x"; "y"]
    [Bgp [mkTriple (var "x") (wdt "P17") (wd "Q30");
          mkTriple (var "y") (wdt "P17") (wd "Q16")]].

(** A yes/no question on France whose capital is also asked for. *)
Definition question_and_projection : SelectQuery :=
  select ["c"]
    [Bgp [mkTriple (wd "Q142") (wdt "P36") (var "c");
          mkTriple (wd "Q142") (wdt "P30") (wd "Q46")]].

(** Two selected tables and the yes/no question with a projection. *)
Definition two_tables_and_question : SelectQuery :=
  select ["x"; "y"; "c"]
    [Bgp [mkTriple (var "x") (wdt "P17") (wd "Q30");
          mkTriple (var "y") (wdt "P17") (wd "Q16");
          mkTriple (wd "Q142") (wdt "P36") (var "c");
          mkTriple (wd "Q142") (wdt "P30") (wd "Q46")]].

(** No selected variable names a table. *)
Definition nothing_selected : SelectQuery :=
  select ["z"] [Bgp [mkTriple (var "x") (wdt "P17") (wd "Q30")]].

(** The countries of Europe. *)
Definition countries_of_europe : SelectQuery :=
  select ["x"]
    [Bgp [mkTriple (var "x") (wdt "P31") (wd "Q6256");
          mkTriple (var "x") (wdt "P30") (wd "Q46")]].

(** A filter clause after a basic pattern. *)
Definition with_filter : SelectQuery :=
  select ["x"]
    [Bgp [mkTriple (var "x") (wdt "P17") (wd "Q30")];
     Filter (EOperation ">" [ETerm (var "x"); ETerm (lit "3")])].

(** An entity the knowledge base has no label for. *)
Definition unknown_entity : SelectQuery :=
  select ["x"] [Bgp [mkTriple (var "x") (wdt "P17") (wd "Q999")]].


(** Unions: the same subject in both branches, two subjects, and a second
    branch that only gives the domain of another subject. *)
Definition union_same : pattern :=
  Union [Bgp [mkTriple (var "x") (wdt "P17") (wd "Q30")];
         Bgp [mkTriple (var "x") (wdt "P17") (wd "Q16")]].

Definition union_different : pattern :=
  Union [Bgp [mkTriple (var "x") (wdt "P17") (wd "Q30")];
         Bgp [mkTriple (var "y") (wdt "P17") (wd "Q16")]].

Definition union_domain_branch : pattern :=
  Union [Bgp [mkTriple (var "x") (wdt "P17") (wd "Q30")];
         Bgp [mkTriple (var "y") (wdt "P31") (wd "Q515")]].

Definition fold_clause (w : pattern) : result unit * state :=
  _parseWhereClause schema getLabel nearest w (mkState [] []).

(** Responses: the texts [JSON.parse] accepts, a network that is down, and
    one that answers with the trace of a timeout. *)
Inductive json := JNull | JObject (members : list (string * string)).

Definition JSON_parse (text : string) : option json :=
  JsObject.get [("null", JNull); ("{}", JObject [])] text.

Definition offline (n : nat) (url : string) : option string := None.

Definition timing_out (n : nat) (url : string) : option string :=
  Some "java.util.concurrent.TimeoutException".

Definition no_world : world := mkWorld [] [] [].

(** The program for the countries of Europe, the keyword being Europe. *)
Definition europe_program : Program :=
  mkProgram
    [ChainExpression
       [FilterExpression (InvocationExpression (Some "country"))
          (AndBooleanExpression
             [AtomBooleanExpression (Some "continent") "contains"
                (Entity "Q46" "org.wikidata:p_continent" (Some "Europe"))])]].

Definition queries : JsObject.t SelectQuery :=
  [("two tables", two_tables);
   ("question and projection", question_and_projection);
   ("two tables and question", two_tables_and_question);
   ("nothing selected", nothing_selected);
   ("countries of europe", countries_of_europe);
   ("with filter", with_filter);
   ("unknown entity", unknown_entity)].

(** The parser, on the texts it knows. *)
Definition parse (sparql : string) : result SelectQuery :=
  match JsObject.get queries sparql with
  | Some q => Ok q
  | None => Err (ParserError "Parse error")
  end.

Definition run (sparql : string) (keywords : list string)
  : result Program * state :=
  convert schema parse getLabel rawTokens nearest notNumber sparql keywords
    (mkState [] []).

End Fixture.

(* ================================================================= *)
(** * Replies of the knowledge base and more queries *)
(* ================================================================= *)

Module Replies.

Import Wikidata Converter.

(** A network that answers every GET with the empty object. *)
Definition answering (n : nat) (url : string) : option string := Some "{}".

(** A text of code units below 256 as a string. *)
Definition text (s : Misc.jsstring) : string :=
  fold_right (fun c r => String (ascii_of_N c) r) EmptyString s.

(** An id that is a [P] or a [Q] and then digits, from end to end. *)
Definition entity_id (id : string) : bool :=
  match id with
  | String c (String d r) =>
      (Ascii.eqb c "P" || Ascii.eqb c "Q")%char
      && forallb WikidataUtils.is_digit (list_ascii_of_string (String d r))
  | _ => false
  end.

(** The URL for the entities asked for, when each id is an entity id. *)
Definition entities_url (ids : list string) (props : string) : option string :=
  if forallb entity_id ids
  then Some ("https://www.wikidata.org/w/api.php?action=wbgetentities&ids="
             ++ join "|" ids ++ "&languages=en&props=" ++ props)%string
  else None.

(** The reply to the query for the domains of an entity that is a human and
    a writer. *)
Definition binding (iri : string) : WikidataUtils.JSON :=
  WikidataUtils.JObject
    [("v", WikidataUtils.JObject [("value", WikidataUtils.JString iri)])].

Definition domains_reply : WikidataUtils.JSON :=
  WikidataUtils.JObject
    [("results",
      WikidataUtils.JObject
        [("bindings",
          WikidataUtils.JArray
            [binding (ENTITY_PREFIX ++ "Q36180"); binding (ENTITY_PREFIX ++ "Q5")])])].

Definition JSON_parse (body : string) : option WikidataUtils.JSON :=
  JsObject.get [("{}", WikidataUtils.JObject []); ("domains", domains_reply)] body.

Definition answering_domains (n : nat) (url : string) : option string :=
  Some "domains".

(** A union whose first branch is about two subjects. *)
Definition union_two_in_branch : pattern :=
  Union [Bgp [mkTriple (Fixture.var "x") (Fixture.wdt "P17") (Fixture.wd "Q30");
              mkTriple (Fixture.var "y") (Fixture.wdt "P17") (Fixture.wd "Q16")];
         Bgp [mkTriple (Fixture.var "x") (Fixture.wdt "P17") (Fixture.wd "Q16")]].

(** An entity without a label under a blank node, beside the countries of
    the United States. *)
Definition under_blank_node : SelectQuery :=
  Fixture.select ["x"]
    [Bgp [mkTriple (Fixture.var "x") (Fixture.wdt "P17") (Fixture.wd "Q30");
          mkTriple (mkTerm BlankNode "b0") (Fixture.wdt "P17") (Fixture.wd "Q999")]].

(** A query that selects everything. *)
Definition everything : SelectQuery :=
  mkSelectQuery (Some [VTerm (mkTerm Wildcard "*")])
    (Some [Bgp [mkTriple (Fixture.var "x") (Fixture.wdt "P17") (Fixture.wd "Q30")]])
    None None.

Definition parse (sparql : string) : result SelectQuery :=
  if String.eqb sparql "everything" then Ok everything
  else if String.eqb sparql "under blank node" then Ok under_blank_node
  else Fixture.parse sparql.

(** The cities and their countries, and the clause that keeps the cities
    with more than three countries. *)
Definition cities : state :=
  mkState []
    [("x", mkTable (Some "city") [mkProjection (Some "country") "y"] [] [])].



End Replies.

Unset Implicit Arguments.

(* ================================================================= *)
(** * The words of the specification *)
(* ================================================================= *)

Module MiscSpec.

Import Misc.


(** The span of [len] tokens that starts at token [i]. *)
Definition span_at (tokens : list jsstring) (p : nat * nat) : jsstring :=
  join (js " ") (firstn (fst p) (skipn (snd p) tokens)).

(** The (length, start) pairs in the order the two loops visit them. *)
Definition positions (n : nat) : list (nat * nat) :=
  flat_map (fun len => map (pair len) (seq 0 (n - len + 1))) (seq 1 n).





(** A unit that [cleanName] can leave in a name. *)
Definition name_unit (c : N) : Prop := is_name_unit c = true \/ c = 95%N.

End MiscSpec.

Module WikidataSpec.

Import Wikidata.

(** The world after a GET of [url] that was rejected. *)
Definition after_rejection (url : string) (w : world) : world :=
  mkWorld (http_requests w) (fetched w ++ [url])
    (console w ++ failure_lines url HttpFailure).

End WikidataSpec.

Module ConverterSpec.

Import Converter.

(** The call throws. *)
Definition fails {A : Type} (m : M A) (st : state) : Prop :=
  exists e st', m st = (Err e, st').

(** A table has output when it holds a verification or one of the selected
    names. *)
Definition has_output (vars : list string) (kv : string * Table) : bool :=
  match verifications (snd kv), selected vars (fst kv) (snd kv) with
  | [], [] => false
  | _, _ => true
  end.

(** A table holds a verification and a selected name. *)
Definition question_with_projection (vars : list string) (kv : string * Table) : bool :=
  match verifications (snd kv), selected vars (fst kv) (snd kv) with
  | _ :: _, _ :: _ => true
  | _, _ => false
  end.

(** A query over one table, with or without its filter. *)
Definition is_base (e : Expression) : Prop :=
  exists d, e = baseQuery d \/ exists f, e = FilterExpression (baseQuery d) f.

(** A table expression is a base, a projection of a base or a yes/no question
    on a base: never a question together with a projection. *)
Definition well_shaped (q : Expression) : Prop :=
  exists base, is_base base
    /\ (q = base
        \/ (exists names, q = ProjectionExpression base names)
        \/ (exists v, q = BooleanQuestionExpression base v)).

(** The triple occurs in the clause: in the basic pattern, or in a basic
    pattern of the union. *)
Definition mentions (w : pattern) (t : triple) : Prop :=
  match w with
  | Bgp triples => In t triples
  | Union patterns => exists triples, In (Bgp triples) patterns /\ In t triples
  | _ => False
  end.

(** The object of the triple is turned into a value: the subject is an IRI,
    or it is a variable and the triple does not give its domain. *)
Definition converts_object (t : triple) : Prop :=
  is_type (object t) NamedNode = true
  /\ (is_type (subject t) NamedNode = true
      \/ (is_type (subject t) Variable_ = true /\ is_P31 (predicate t) = false)).


(** An object as the converter builds them: its own keys are distinct and
    none of them is a name that objects inherit. *)
Definition plain {V : Type} (obj : JsObject.t V) : Prop :=
  NoDup (map fst obj)
  /\ Forall (fun k => JsObject.inherited k = false) (map fst obj).

(** A method that keeps the keywords and what the tables hold under [x],
    whether it returns or throws. *)
Definition keeps {A : Type} (x : string) (m : M A) : Prop :=
  forall st r st', m st = (r, st') ->
    _keywords st' = _keywords st
    /\ JsObject.get (_tables st') x = JsObject.get (_tables st) x.

(** What the method returns satisfies [Q]. *)
Definition yields {A : Type} (Q : A -> Prop) (m : M A) : Prop :=
  forall st a st', m st = (Ok a, st') -> Q a.

(** The arrays of a table only grow: [T'] holds what [T] held, in the same
    order, and maybe more after it. *)
Definition grows (T T' : Table) : Prop :=
  (exists more, projections T' = projections T ++ more)
  /\ (exists more, filters T' = filters T ++ more)
  /\ (exists more, verifications T' = verifications T ++ more).

(** From [st] to [st'] the keywords are the same, every subject that had a
    table still has one, and that table has grown. *)
Definition extends (st st' : state) : Prop :=
  _keywords st' = _keywords st
  /\ forall s T, JsObject.get (_tables st) s = Some T ->
       exists T', JsObject.get (_tables st') s = Some T' /\ grows T T'.

(** A method that only extends the state, whether it returns or throws. *)
Definition extending {A : Type} (m : M A) : Prop :=
  forall st r st', m st = (r, st') -> extends st st'.


(** The entry of [parsed.variables] is a variable with a name. *)
Definition named_variable (v : variable_entry) : Prop :=
  match v with
  | VTerm t => String.eqb (value t) "*" = false
  | VExpression _ _ => False
  end.

End ConverterSpec.

(* ================================================================= *)
(** * Properties of lib/utils/misc.ts *)
(* ================================================================= *)

Module MiscFacts.

Import Misc MiscSpec.

Lemma jseqb_refl (a : jsstring) : jseqb a a = true.
Proof. unfold jseqb. destruct (list_eq_dec N.eq_dec a a); congruence. Qed.

Lemma jseqb_eq (a b : jsstring) : jseqb a b = true <-> a = b.
Proof. unfold jseqb. destruct (list_eq_dec N.eq_dec a b); split; congruence. Qed.

Lemma includes_In (arr : list jsstring) (v : jsstring) :
  includes arr v = true <-> In v arr.
Proof.
  unfold includes. rewrite existsb_exists. split.
  - intros [x [Hx He]]. apply jseqb_eq in He. now subst.
  - intros H. exists v. split; [assumption | apply jseqb_refl].
Qed.

Lemma map_flat_map {A B C : Type} (f : B -> C) (g : A -> list B) (l : list A) :
  map f (flat_map g l) = flat_map (fun x => map f (g x)) l.
Proof.
  induction l as [|x l IH]; simpl; [reflexivity|].
  now rewrite map_app, IH.
Qed.

Lemma getSpans_positions (s : jsstring) :
  getSpans s =
  map (span_at (split_spaces (removeEndPunctuation s)))
      (positions (List.length (split_spaces (removeEndPunctuation s)))).
Proof.
  unfold getSpans, positions.
  rewrite map_flat_map.
  apply flat_map_ext. intros len.
  rewrite map_map. apply map_ext. intros index.
  unfold span_at, slice. simpl.
  replace (index + len - index) with len by lia. reflexivity.
Qed.

Lemma positions_In (n len i : nat) :
  In (len, i) (positions n) <-> 1 <= len /\ i + len <= n.
Proof.
  unfold positions. rewrite in_flat_map. split.
  - intros [l [Hl Hin]]. apply in_seq in Hl.
    apply in_map_iff in Hin. destruct Hin as [j [Hj Hin]].
    apply in_seq in Hin. inversion Hj; subst. lia.
  - intros [H1 H2]. exists len. split.
    + apply in_seq. lia.
    + apply in_map_iff. exists i. split; [reflexivity|]. apply in_seq. lia.
Qed.













Section SimilarityFacts.

Variable toLowerCase : jsstring -> jsstring.
Variable normalizeNFD : jsstring -> jsstring.
Variable removeStopwords : list jsstring -> list jsstring.
Variable stemmer : jsstring -> jsstring.

Local Abbreviation cleaned :=
  (cleaned toLowerCase normalizeNFD removeStopwords stemmer).
Local Abbreviation similarity :=
  (similarity toLowerCase normalizeNFD removeStopwords stemmer).

Lemma filter_all {A : Type} (f : A -> bool) (l : list A) :
  (forall x, In x l -> f x = true) -> filter f l = l.
Proof.
  induction l as [|a l IH]; simpl; intros H; [reflexivity|].
  rewrite (H a (or_introl eq_refl)), IH; auto.
Qed.

Lemma filter_none {A : Type} (f : A -> bool) (l : list A) :
  (forall x, In x l -> f x = false) -> filter f l = [].
Proof.
  induction l as [|a l IH]; simpl; intros H; [reflexivity|].
  rewrite (H a (or_introl eq_refl)), IH; auto.
Qed.

Lemma of_length_cons_nonzero {A : Type} (a : A) (l : list A) :
  ~ (of_length (a :: l) == 0)%Q.
Proof.
  unfold of_length, Qeq. simpl List.length. simpl Qnum. simpl Qden. lia.
Qed.

Lemma zero_quotient (q : Q) : (of_length (@nil jsstring) / q == 0)%Q.
Proof. unfold of_length. simpl. unfold Qdiv. apply Qmult_0_l. Qed.

Lemma similarity_self (x : jsstring) :
  cleaned x <> [] -> (similarity x x f1 == 1)%Q.
Proof.
  intros Hne. unfold Misc.similarity.
  destruct (cleaned x) as [|a l] eqn:E; [congruence|].
  rewrite filter_all by (intros v Hv; apply includes_In; exact Hv).
  assert (Hp : (of_length (a :: l) / of_length (a :: l) == 1)%Q).
  { unfold Qdiv. apply Qmult_inv_r. apply of_length_cons_nonzero. }
  destruct (Qeq_bool (of_length (a :: l) / of_length (a :: l)) 0) eqn:Hz.
  - apply Qeq_bool_eq in Hz. rewrite Hp in Hz. discriminate Hz.
  - simpl orb. cbv iota. rewrite Hp. reflexivity.
Qed.

Lemma similarity_disjoint (x y : jsstring) (alg : algorithm) :
  (forall t, In t (cleaned x) -> ~ In t (cleaned y)) ->
  (similarity x y alg == 0)%Q.
Proof.
  intros Hd. unfold Misc.similarity.
  destruct (cleaned x) as [|a l] eqn:Ex; [reflexivity|].
  destruct (cleaned y) as [|b m] eqn:Ey; [reflexivity|].
  rewrite filter_none.
  - destruct alg.
    + apply zero_quotient.
    + pose proof (zero_quotient (of_length (a :: l))) as Hz.
      apply Qeq_bool_iff in Hz. rewrite Hz. reflexivity.
  - intros v Hv. destruct (includes (b :: m) v) eqn:Hi; [|reflexivity].
    apply includes_In in Hi. exfalso. exact (Hd v Hv Hi).
Qed.

Lemma similarity_empty (x y : jsstring) (alg : algorithm) :
  cleaned x = [] \/ cleaned y = [] -> (similarity x y alg == 0)%Q.
Proof.
  intros [H|H]; unfold Misc.similarity; rewrite H.
  - reflexivity.
  - destruct (cleaned x); reflexivity.
Qed.

(** C9: with the f1 measure a string is at similarity 1 from itself when its
    list of cleaned tokens is not empty; two strings whose cleaned tokens are
    disjoint are at similarity 0; and the similarity is 0 when one of the two
    lists of cleaned tokens is empty. *)
Theorem similarity_bounds :
  (forall x, cleaned x <> [] -> (similarity x x f1 == 1)%Q)
  /\ (forall x y alg,
        (forall t, In t (cleaned x) -> ~ In t (cleaned y)) ->
        (similarity x y alg == 0)%Q)
  /\ (forall x y alg,
        cleaned x = [] \/ cleaned y = [] -> (similarity x y alg == 0)%Q).
Proof.
  split; [exact similarity_self|].
  split; [exact similarity_disjoint | exact similarity_empty].
Qed.

End SimilarityFacts.

End MiscFacts.

(* ================================================================= *)
(** * Properties of the request primitive *)
(* ================================================================= *)

Module WikidataFacts.

Import Wikidata.

Section RequestFacts.

Variable json : Type.
Variable null : json.
Variable JSON_parse : string -> option json.
Variable Http_get : nat -> string -> option string.

Local Abbreviation fetch := (fetch JSON_parse Http_get).
Local Abbreviation request_lib := (_request null JSON_parse Http_get).
Local Abbreviation request_dist := (Dist._request null JSON_parse Http_get).

Lemma find_after {A : Type} (f : A -> bool) (l1 l2 : list A) :
  find f l1 = None -> find f (l1 ++ l2) = find f l2.
Proof.
  induction l1 as [|a l1 IH]; simpl; [reflexivity|].
  destruct (f a); [discriminate | exact IH].
Qed.

Lemma fetch_rejected (url : string) (caching : bool) (w : world) :
  Http_get (List.length (fetched w)) url = None ->
  fetch url caching w
  = (Thrown HttpFailure, mkWorld (http_requests w) (fetched w ++ [url]) (console w)).
Proof. intros H. unfold Wikidata.fetch. now rewrite H. Qed.

Lemma request_dist_rejected_twice (url : string) (caching : bool) (w : world) :
  (if caching then _getCache url w else None) = None ->
  Http_get (List.length (fetched w)) url = None ->
  Http_get (S (List.length (fetched w))) url = None ->
  request_dist url caching 1 w
  = (Returned null,
     mkWorld (http_requests w) (fetched w ++ [url; url])
       (console w ++ failure_lines url HttpFailure)).
Proof.
  intros Hm H1 H2.
  simp _request. rewrite Hm. simp _request. rewrite (fetch_rejected url caching w H1).
  simp _request. destruct (lt_dec 1 2) as [Hlt|Hge]; [|lia]. simp _request.
  assert (Hm' : (if caching
                 then _getCache url
                        (mkWorld (http_requests w) (fetched w ++ [url]) (console w))
                 else None) = None) by exact Hm.
  rewrite Hm'. simp _request.
  rewrite fetch_rejected
    by (cbn [fetched]; rewrite length_app, Nat.add_comm; exact H2).
  simp _request. destruct (lt_dec (1 + 1) 2) as [Hlt'|Hge]; [lia|]. simp _request.
  unfold log. cbn [http_requests fetched console]. now rewrite <- app_assoc.
Qed.

Lemma request_lib_rejected (url : string) (caching : bool) (w : world) :
  (if caching then _getCache url w else None) = None ->
  Http_get (List.length (fetched w)) url = None ->
  request_lib url caching w
  = (Returned null,
     mkWorld (http_requests w) (fetched w ++ [url])
       (console w ++ failure_lines url HttpFailure)).
Proof.
  intros Hm H1. unfold Wikidata._request. rewrite Hm.
  rewrite (fetch_rejected url caching w H1). reflexivity.
Qed.

Lemma fetch_fetched (url : string) (caching : bool) (w : world) :
  fetched (snd (fetch url caching w)) = fetched w ++ [url].
Proof.
  unfold Wikidata.fetch, _setCache.
  destruct (Http_get _ url) as [body|]; [|reflexivity].
  destruct caching; [destruct (_getCache url _)|];
    try destruct (JSON_parse body); reflexivity.
Qed.

(** The dist [_request] makes at most two GETs, all of the URL asked for: a
    failed attempt is tried again once. *)
Lemma request_dist_at_most_two_gets (url : string) (caching : bool) (w : world) :
  exists k, k <= 2
    /\ fetched (snd (request_dist url caching 1 w)) = fetched w ++ repeat url k.
Proof.
  simp _request.
  destruct (if caching then _getCache url w else None) as [text|]; simp _request.
  - exists 0. rewrite app_nil_r.
    destruct (JSON_parse text); simp _request; split; auto.
  - pose proof (fetch_fetched url caching w) as F1.
    destruct (fetch url caching w) as [[parsed|e] w1]; simp _request.
    + exists 1. split; [lia | exact F1].
    + destruct (lt_dec 1 2) as [Hlt|Hge]; [|lia]. simp _request.
      destruct (if caching then _getCache url w1 else None) as [text|];
        simp _request.
      * exists 1. split; [lia|].
        destruct (JSON_parse text); simp _request; exact F1.
      * pose proof (fetch_fetched url caching w1) as F2.
        destruct (fetch url caching w1) as [[parsed|e2] w2]; simp _request.
        -- exists 2. split; [lia|]. cbn [snd] in *. rewrite F2, F1.
           now rewrite <- app_assoc.
        -- destruct (lt_dec (1 + 1) 2) as [Hlt'|Hge]; [lia|]. simp _request.
           exists 2. split; [lia|]. cbn [snd fetched log] in *.
           rewrite F2, F1. now rewrite <- app_assoc.
Qed.

(** C7, at the input where the code leaves the claim: the first GET of a
    cached request resolves to a text that [JSON.parse] rejects.  The text
    was stored before it was parsed, so the second attempt of the dist
    [_request] finds it in the cache and parses it outside the [try]: the
    call throws, after one GET and without a line on the console. *)
Theorem request_dist_throws_on_stored_text
  (url body : string) (w : world) :
  _getCache url w = None ->
  Http_get (List.length (fetched w)) url = Some body ->
  JSON_parse body = None ->
  request_dist url true 1 w
  = (Thrown SyntaxError,
     mkWorld (http_requests w ++ [(url, body)]) (fetched w ++ [url]) (console w)).
Proof.
  intros Hm H1 Hp.
  simp _request. rewrite Hm. simp _request.
  unfold Wikidata.fetch. rewrite H1. unfold _setCache.
  assert (Hm' : _getCache url
                  (mkWorld (http_requests w) (fetched w ++ [url]) (console w))
                = None) by exact Hm.
  rewrite Hm'. cbn [http_requests fetched console]. rewrite Hp.
  simp _request. destruct (lt_dec 1 2) as [Hlt|Hge]; [|lia]. simp _request.
  assert (Hhit : _getCache url
                   (mkWorld (http_requests w ++ [(url, body)]) (fetched w ++ [url])
                      (console w))
                 = Some body).
  { unfold _getCache in *. cbn [http_requests] in *.
    rewrite find_after.
    - simpl. now rewrite String.eqb_refl.
    - destruct (find (fun row => String.eqb (fst row) url) (http_requests w));
        [discriminate | reflexivity]. }
  rewrite Hhit. simp _request. rewrite Hp. simp _request. reflexivity.
Qed.

End RequestFacts.

End WikidataFacts.

(* ================================================================= *)
(** * Properties of objects used as maps *)
(* ================================================================= *)

Module JsObjectFacts.

Import JsObject.

Section Facts.
Context {V : Type}.

Lemma own_get (obj : t V) (key : string) :
  own obj key = match get obj key with Some _ => true | None => false end.
Proof.
  unfold own, get. induction obj as [|[k x] obj IH]; simpl; [reflexivity|].
  destruct (String.eqb k key); simpl; [reflexivity | exact IH].
Qed.

Lemma has_get (obj : t V) (key : string) :
  has obj key = match get obj key with Some _ => true | None => inherited key end.
Proof. unfold has. rewrite own_get. now destruct (get obj key). Qed.

Lemma get_set (obj : t V) (key : string) (v : V) :
  get (set obj key v) key = Some v.
Proof.
  unfold get. induction obj as [|[k x] obj IH]; simpl.
  - now rewrite String.eqb_refl.
  - destruct (String.eqb k key) eqn:E; simpl; rewrite E; [reflexivity | exact IH].
Qed.

Lemma get_set_other (obj : t V) (key k : string) (v : V) :
  k <> key -> get (set obj key v) k = get obj k.
Proof.
  intros Hne. unfold get.
  induction obj as [|[k0 x] obj IH]; simpl.
  - destruct (String.eqb_spec key k); [congruence | reflexivity].
  - destruct (String.eqb_spec k0 key) as [->|Hk]; simpl.
    + destruct (String.eqb_spec key k); [congruence | reflexivity].
    + destruct (String.eqb k0 k); [reflexivity | exact IH].
Qed.

Lemma read_get (obj : t V) (key : string) (v : V) :
  get obj key = Some v -> read obj key = Own v.
Proof. unfold read. now intros ->. Qed.

Lemma read_plain (obj : t V) (key : string) :
  inherited key = false ->
  read obj key = match get obj key with Some v => Own v | None => Absent end.
Proof. unfold read. now intros ->. Qed.



Lemma keys_set (obj : t V) (key : string) (v : V) :
  map fst (set obj key v)
  = if own obj key then map fst obj else map fst obj ++ [key].
Proof.
  unfold own. induction obj as [|[k x] obj IH]; simpl; [reflexivity|].
  destruct (String.eqb k key) eqn:E; simpl; [reflexivity|].
  rewrite IH. now destruct (existsb _ obj).
Qed.

Lemma own_In (obj : t V) (key : string) :
  own obj key = true <-> In key (map fst obj).
Proof.
  unfold own. rewrite existsb_exists, in_map_iff. split.
  - intros [kv [Hin E]]. apply String.eqb_eq in E. now exists kv.
  - intros [kv [E Hin]]. exists kv. split; [exact Hin | now apply String.eqb_eq].
Qed.

Lemma NoDup_set (obj : t V) (key : string) (v : V) :
  NoDup (map fst obj) -> NoDup (map fst (set obj key v)).
Proof.
  intros H. rewrite keys_set. destruct (own obj key) eqn:E; [exact H|].
  apply NoDup_app; [exact H | repeat constructor; intros [] |].
  intros k Hk [<-|[]]. apply own_In in Hk. congruence.
Qed.

Lemma insert_index_perm (n : N) (kv : string * V)
  (l : list (N * (string * V))) :
  Permutation (map snd (insert_index n kv l)) (kv :: map snd l).
Proof.
  induction l as [|[m x] l IH]; simpl; [reflexivity|].
  destruct (n <=? m)%N; simpl; [reflexivity|].
  rewrite IH. apply perm_swap.
Qed.

Lemma entries_perm (obj : t V) : Permutation (entries obj) obj.
Proof.
  unfold entries, indexed, named. induction obj as [|kv obj IH]; simpl;
    [reflexivity|].
  destruct (array_index (fst kv)); simpl.
  - rewrite insert_index_perm. simpl. now constructor.
  - rewrite <- Permutation_middle. now constructor.
Qed.


End Facts.

End JsObjectFacts.

(* ================================================================= *)
(** * Properties of lib/converter.ts *)
(* ================================================================= *)

Module ConverterFacts.

Import Wikidata Converter ConverterSpec.

(** ** Sequencing *)

Lemma bind_ok {A B : Type} (m : M A) (k : A -> M B) (st st' : state) (a : A) :
  m st = (Ok a, st') -> bind m k st = k a st'.
Proof. intros H. unfold bind. now rewrite H. Qed.

Lemma bind_err {A B : Type} (m : M A) (k : A -> M B) (st st' : state) (e : error) :
  m st = (Err e, st') -> bind m k st = (Err e, st').
Proof. intros H. unfold bind. now rewrite H. Qed.

Lemma fails_bind {A B : Type} (m : M A) (k : A -> M B) (st : state) :
  fails m st -> fails (bind m k) st.
Proof.
  intros [e [st' H]]. exists e, st'. now apply bind_err.
Qed.

Lemma fails_then {A B : Type} (m : M A) (k : A -> M B) (st : state) :
  (forall a st', fails (k a) st') -> fails (bind m k) st.
Proof.
  intros H. unfold fails, bind.
  destruct (m st) as [[a|e] st'].
  - apply H.
  - now exists e, st'.
Qed.

Lemma for_of_app {A B : Type} (body : A -> B -> M B) (l1 l2 : list A)
  (acc : B) (st : state) :
  for_of body (l1 ++ l2) acc st = bind (for_of body l1 acc) (for_of body l2) st.
Proof.
  revert acc st. induction l1 as [|x l1 IH]; intros acc st; simpl.
  - reflexivity.
  - unfold bind in *. destruct (body x acc st) as [[acc'|e] st'].
    + apply IH.
    + reflexivity.
Qed.

Lemma for_of_fails {A B : Type} (body : A -> B -> M B) (l : list A) (x : A) :
  In x l -> (forall acc st, fails (body x acc) st) ->
  forall acc st, fails (for_of body l acc) st.
Proof.
  intros Hin Hx. induction l as [|y l IH]; [contradiction|].
  intros acc st. simpl. destruct Hin as [->|Hin].
  - apply fails_bind, Hx.
  - apply fails_then. intros a st'. now apply IH.
Qed.

(** ** The tables of the generation loop *)

Lemma table_query_exclusive (vars : list string) (kv : string * Table)
  (queries : list Expression) :
  question_with_projection vars kv = true ->
  table_query vars kv queries = Err AssertionError.
Proof.
  destruct kv as [s T]. unfold question_with_projection, table_query. simpl.
  destruct (verifications T); [discriminate|].
  destruct (selected vars s T); [discriminate|]. reflexivity.
Qed.

Lemma base_is_base (T : Table) :
  is_base
    match filters T with
    | [] => baseQuery (domain T)
    | _ :: _ => FilterExpression (baseQuery (domain T)) (AndBooleanExpression (filters T))
    end.
Proof.
  exists (domain T). destruct (filters T); [now left | right; eauto].
Qed.

Lemma table_query_output (vars : list string) (kv : string * Table)
  (queries : list Expression) :
  question_with_projection vars kv = false ->
  exists out,
    table_query vars kv queries = Ok (queries ++ out)
    /\ List.length out = (if has_output vars kv then 1 else 0)
    /\ Forall well_shaped out.
Proof.
  destruct kv as [s T].
  unfold question_with_projection, has_output, table_query. simpl.
  pose proof (base_is_base T) as Hb.
  destruct (verifications T) as [|v more].
  - intros _. destruct (selected vars s T) as [|n names].
    + exists []. rewrite app_nil_r. repeat split. constructor.
    + eexists [_]. repeat split. constructor; [|constructor].
      eexists. split; [exact Hb|].
      destruct (only_id (n :: names)); [now left | right; left; eauto].
  - destruct (selected vars s T); [intros _ | discriminate].
    eexists [_]. repeat split. constructor; [|constructor].
    eexists. split; [exact Hb|]. right; right; eauto.
Qed.

Lemma table_queries_exclusive (vars : list string) (l : list (string * Table))
  (queries : list Expression) :
  existsb (question_with_projection vars) l = true ->
  table_queries vars l queries = Err AssertionError.
Proof.
  revert queries. induction l as [|kv l IH]; intros queries H; [discriminate|].
  simpl in *. destruct (question_with_projection vars kv) eqn:E.
  - now rewrite table_query_exclusive.
  - destruct (table_query_output vars kv queries E) as [out [-> _]].
    now apply IH.
Qed.

Lemma table_queries_output (vars : list string) (l : list (string * Table))
  (queries : list Expression) :
  existsb (question_with_projection vars) l = false ->
  exists out,
    table_queries vars l queries = Ok (queries ++ out)
    /\ List.length out = List.length (filter (has_output vars) l)
    /\ Forall well_shaped out.
Proof.
  revert queries. induction l as [|kv l IH]; intros queries H; simpl in *.
  - exists []. rewrite app_nil_r. repeat split. constructor.
  - apply orb_false_iff in H. destruct H as [E H].
    destruct (table_query_output vars kv queries E) as [o1 [-> [L1 W1]]].
    destruct (IH (queries ++ o1) H) as [o2 [-> [L2 W2]]].
    exists (o1 ++ o2). rewrite app_assoc. split; [reflexivity|]. split.
    + rewrite length_app, L1, L2. destruct (has_output vars kv); reflexivity.
    + apply Forall_app. now split.
Qed.



(** ** The method [convert] *)

Section Conversion.

Variable _schema : WikiSchema.
Variable _parser_parse : string -> result SelectQuery.
Variable _wikidata_getLabel : string -> option string.
Variable _tokenizer_rawTokens : string -> list string.
Variable closest : string -> list string -> option string.
Variable isNaN : string -> bool.

Local Abbreviation convert :=
  (convert _schema _parser_parse _wikidata_getLabel _tokenizer_rawTokens closest isNaN).
Local Abbreviation parse_clauses :=
  (parse_clauses _schema _wikidata_getLabel closest isNaN).
Local Abbreviation _parseWhereClause :=
  (_parseWhereClause _schema _wikidata_getLabel closest).
Local Abbreviation reset_state := (reset_state _tokenizer_rawTokens).

Lemma convert_generates (sparql : string) (keywords : list string)
  (parsed : SelectQuery) (st st1 : state) :
  _parser_parse sparql = Ok parsed ->
  parse_clauses parsed (reset_state keywords) = (Ok tt, st1) ->
  convert sparql keywords st = (generate sparql parsed (_tables st1), st1).
Proof.
  intros Hp Hc. unfold Converter.convert, bind, _reset. rewrite Hp, Hc.
  reflexivity.
Qed.

Lemma convert_stops (sparql : string) (keywords : list string)
  (parsed : SelectQuery) (st st1 : state) (e : error) :
  _parser_parse sparql = Ok parsed ->
  parse_clauses parsed (reset_state keywords) = (Err e, st1) ->
  convert sparql keywords st = (Err e, st1).
Proof.
  intros Hp Hc. unfold Converter.convert, bind, _reset. rewrite Hp, Hc.
  reflexivity.
Qed.



(** C2: when a table that holds a verification also has a selected name,
    [convert] throws on the assertion of the loop over the tables; and a
    program that [convert] returns is made of one table expression that is a
    base query, a projection of one or a yes/no question on one, never a
    question together with a projection. *)
Theorem convert_question_excludes_projection
  (sparql : string) (keywords : list string) (st : state) :
  (forall parsed vars st1 kv,
     _parser_parse sparql = Ok parsed ->
     parse_clauses parsed (reset_state keywords) = (Ok tt, st1) ->
     read_variables (from_option (variables parsed)) [] = Ok vars ->
     In kv (JsObject.entries (_tables st1)) ->
     verifications (snd kv) <> [] ->
     selected vars (fst kv) (snd kv) <> [] ->
     convert sparql keywords st = (Err AssertionError, st1))
  /\ (forall p st',
        convert sparql keywords st = (Ok p, st') ->
        exists q, p = makeProgram q /\ well_shaped q).
Proof.
  split.
  - intros parsed vars st1 kv Hp Hc Hv Hin Hver Hsel.
    rewrite (convert_generates sparql keywords parsed st st1 Hp Hc).
    unfold generate. rewrite Hv.
    rewrite table_queries_exclusive; [reflexivity|].
    apply existsb_exists. exists kv. split; [assumption|].
    unfold question_with_projection.
    destruct (verifications (snd kv)); [congruence|].
    destruct (selected vars (fst kv) (snd kv)); congruence.
  - intros p st' H.
    destruct (_parser_parse sparql) as [parsed|e] eqn:Hp.
    + destruct (parse_clauses parsed (reset_state keywords)) as [[[]|e] st1] eqn:Hc.
      * rewrite (convert_generates sparql keywords parsed st st1 Hp Hc) in H.
        unfold generate in H.
        destruct (read_variables (from_option (variables parsed)) []) as [vars|e];
          [|discriminate].
        destruct (existsb (question_with_projection vars) (JsObject.entries (_tables st1)))
          eqn:Hq.
        -- rewrite (table_queries_exclusive vars _ [] Hq) in H. discriminate.
        -- destruct (table_queries_output vars _ [] Hq) as [out [E [_ Hw]]].
           rewrite E in H. simpl in H.
           destruct out as [|q [|q2 out]]; try discriminate.
           exists q. inversion H. split; [reflexivity|].
           now inversion Hw.
      * rewrite (convert_stops sparql keywords parsed st st1 e Hp Hc) in H. discriminate.
    + unfold Converter.convert, bind, _reset, throw in H. rewrite Hp in H.
      discriminate.
Qed.

Lemma for_each_fails {A : Type} (body : A -> M unit) (l : list A) (x : A)
  (st : state) :
  In x l -> (forall st', fails (body x) st') -> fails (for_each body l) st.
Proof.
  intros Hin Hx. unfold for_each.
  apply (for_of_fails (fun x _ => body x) l x Hin). intros _ st'. apply Hx.
Qed.

Lemma convert_fails_in_where (sparql : string) (keywords : list string)
  (parsed : SelectQuery) (w : pattern) (st : state) :
  _parser_parse sparql = Ok parsed ->
  In w (from_option (where_ parsed)) ->
  (forall st', fails (_parseWhereClause w) st') ->
  fails (convert sparql keywords) st.
Proof.
  intros Hp Hin Hw.
  assert (Hc : fails (parse_clauses parsed) (reset_state keywords)).
  { unfold Converter.parse_clauses. apply fails_bind.
    apply (for_each_fails _ _ w _ Hin Hw). }
  destruct Hc as [e [st1 Hc]]. exists e, st1.
  apply (convert_stops sparql keywords parsed st st1 e Hp Hc).
Qed.

(** C6: a filter clause makes [_parseWhereClause] throw the unsupported-filter
    error and leaves every table as it was; so [convert] returns no program
    for a query with such a clause, and the error it throws is this one when
    the clauses before the filter were folded; the filter helper of
    converter2 throws as well. *)
Theorem filter_clause_not_supported (e : expression) :
  (forall st,
     _parseWhereClause (Filter e) st = (Err (UnsupportedFilter (Filter e)), st))
  /\ (forall sparql keywords parsed st,
        _parser_parse sparql = Ok parsed ->
        In (Filter e) (from_option (where_ parsed)) ->
        fails (convert sparql keywords) st)
  /\ (forall sparql keywords parsed before after st st1,
        _parser_parse sparql = Ok parsed ->
        where_ parsed = Some (before ++ Filter e :: after) ->
        for_each _parseWhereClause before (reset_state keywords) = (Ok tt, st1) ->
        convert sparql keywords st = (Err (UnsupportedFilter (Filter e)), st1))
  /\ FilterConverter.convert e = Err TodoHandleFilters.
Proof.
  split; [reflexivity|]. split; [|split; [|reflexivity]].
  - intros sparql keywords parsed st Hp Hin.
    apply (convert_fails_in_where sparql keywords parsed (Filter e) st Hp Hin).
    intros st'. eexists _, _. reflexivity.
  - intros sparql keywords parsed before after st st1 Hp Hw Hb.
    apply (convert_stops sparql keywords parsed st st1 _ Hp).
    unfold Converter.parse_clauses. rewrite Hw. simpl from_option.
    apply bind_err. unfold for_each in *. rewrite for_of_app.
    rewrite (bind_ok _ _ _ _ _ Hb). reflexivity.
Qed.

(** ** Values without a label *)

Local Abbreviation _toThingTalkValue :=
  (_toThingTalkValue _wikidata_getLabel closest).
Local Abbreviation _atomFilter := (_atomFilter _schema _wikidata_getLabel closest).
Local Abbreviation convertTriple := (convertTriple _schema _wikidata_getLabel closest).
Local Abbreviation _convertTriples := (_convertTriples _schema _wikidata_getLabel closest).

(** The label looked up for the entity of an IRI. *)
Local Abbreviation label_of v :=
  (_wikidata_getLabel (slice (String.length ENTITY_PREFIX) v)).

Lemma value_without_label (v : string) (pty : Type_) (type : string) (st : state) :
  elemType pty = TEntity type ->
  truthy (label_of v) = false ->
  _toThingTalkValue v (Some pty) st = (Err AssertionError, st).
Proof.
  intros Ht Hl. unfold Converter._toThingTalkValue, option_map. rewrite Ht.
  unfold bind, assert, ret, throw.
  destruct (startsWith v ENTITY_PREFIX); [|reflexivity].
  rewrite Hl. reflexivity.
Qed.

Lemma value_has_label (v : string) (opty : option Type_) (st st' : state)
  (val : Value) :
  _toThingTalkValue v opty st = (Ok val, st') ->
  exists type label,
    label_of v = Some label /\ label <> EmptyString
    /\ val = Entity (slice (String.length ENTITY_PREFIX) v) type
               (closest label (_keywords st)).
Proof.
  unfold Converter._toThingTalkValue. intros H.
  unfold option_map in H. destruct opty as [pty|]; [|discriminate].
  destruct (elemType pty) as [|type| |]; try discriminate.
  unfold bind, assert, ret, throw, get_keywords in H.
  destruct (startsWith v ENTITY_PREFIX); [|discriminate].
  destruct (label_of v) as [[|c label]|]; try discriminate.
  simpl in H. inversion H. exists type, (String c label).
  repeat split. discriminate.
Qed.

Lemma atomFilter_without_label (P v : string) (pty : Type_) (type : string)
  (st : state) :
  P <> "id" ->
  getPropertyType _schema (slice (String.length PROPERTY_PREFIX) P) = Some pty ->
  elemType pty = TEntity type ->
  truthy (label_of v) = false ->
  _atomFilter (Some P) v st = (Err AssertionError, st).
Proof.
  intros Hid Hp Ht Hl. unfold Converter._atomFilter.
  destruct (String.eqb_spec P "id") as [|_]; [contradiction|].
  rewrite Hp. apply bind_err. now apply value_without_label with (type := type).
Qed.

Lemma convertTriple_without_label (t : triple) (P : string) (pty : Type_)
  (type : string) (acc : JsObject.t (list BooleanExpression)) (st : state) :
  converts_object t ->
  predicate_value (predicate t) = Some P ->
  P <> "id" ->
  getPropertyType _schema (slice (String.length PROPERTY_PREFIX) P) = Some pty ->
  elemType pty = TEntity type ->
  truthy (label_of (value (object t))) = false ->
  fails (convertTriple t acc) st.
Proof.
  intros [Ho Hs] HP Hid Hp Ht Hl.
  assert (Ha : forall st', fails (_atomFilter (Some P) (value (object t))) st').
  { intros st'. eexists _, _.
    apply (atomFilter_without_label P _ pty type st' Hid Hp Ht Hl). }
  unfold Converter.convertTriple. apply fails_then. intros _ st'.
  rewrite Ho, HP.
  assert (Hov : is_type (object t) Variable_ = false).
  { unfold is_type in *. destruct (term_type (object t)); simpl in *; congruence. }
  destruct Hs as [Hs|[Hs H31]].
  - assert (Hsv : is_type (subject t) Variable_ = false).
    { unfold is_type in *. destruct (term_type (subject t)); simpl in *; congruence. }
    rewrite Hsv. simpl andb. cbv iota. apply fails_bind.
    unfold projection_and_verification. rewrite Hov, Ho, Hs, HP. simpl when.
    apply fails_then. intros _ st''. apply fails_bind, Ha.
  - rewrite Hs, H31. simpl andb. cbv iota. apply fails_bind, Ha.
Qed.

Lemma parseWhereClause_without_label (w : pattern) (t : triple) (P : string)
  (pty : Type_) (type : string) (st : state) :
  mentions w t ->
  converts_object t ->
  predicate_value (predicate t) = Some P ->
  P <> "id" ->
  getPropertyType _schema (slice (String.length PROPERTY_PREFIX) P) = Some pty ->
  elemType pty = TEntity type ->
  truthy (label_of (value (object t))) = false ->
  fails (_parseWhereClause w) st.
Proof.
  intros Hm Hc HP Hid Hp Ht Hl.
  assert (Ht' : forall triples st', In t triples -> fails (_convertTriples triples) st').
  { intros triples st' Hin. unfold Converter._convertTriples. apply fails_bind.
    apply (for_of_fails _ _ t Hin). intros acc st''.
    apply (convertTriple_without_label t P pty type acc st'' Hc HP Hid Hp Ht Hl). }
  destruct w as [triples|patterns| |]; simpl in Hm; try contradiction.
  - unfold Converter._parseWhereClause, _parseBasic. apply fails_bind. now apply Ht'.
  - destruct Hm as [triples [Hin Hin']].
    unfold Converter._parseWhereClause, _parseUnion. apply fails_bind.
    apply (for_of_fails _ _ (Bgp triples) Hin). intros acc st'.
    unfold union_branch. apply fails_bind. now apply Ht'.
Qed.

(** C5, amended: the value of an entity whose label the knowledge base does
    not give (no label, or an empty one) is not built: [_toThingTalkValue]
    throws, and [convert] returns no program for a query with a triple whose
    object is such an entity and is converted (the subject is an IRI, or it
    is a variable and the triple does not give its domain), under a property
    of entity type; and every value that [_toThingTalkValue] returns is an
    entity with a non-empty label, whose display is what [closest] gives for
    that label among the keywords, which may be nothing. *)
Theorem entity_without_label_aborts :
  (forall v pty type st,
     elemType pty = TEntity type ->
     truthy (label_of v) = false ->
     _toThingTalkValue v (Some pty) st = (Err AssertionError, st))
  /\ (forall sparql keywords parsed w t P pty type st,
        _parser_parse sparql = Ok parsed ->
        In w (from_option (where_ parsed)) ->
        mentions w t ->
        converts_object t ->
        predicate_value (predicate t) = Some P ->
        P <> "id" ->
        getPropertyType _schema (slice (String.length PROPERTY_PREFIX) P) = Some pty ->
        elemType pty = TEntity type ->
        truthy (label_of (value (object t))) = false ->
        fails (convert sparql keywords) st)
  /\ (forall v opty st st' val,
        _toThingTalkValue v opty st = (Ok val, st') ->
        exists type label,
          label_of v = Some label /\ label <> EmptyString
          /\ val = Entity (slice (String.length ENTITY_PREFIX) v) type
                     (closest label (_keywords st))).
Proof.
  split; [|split].
  - intros v pty type st. apply value_without_label.
  - intros sparql keywords parsed w t P pty type st Hp Hin Hm Hc HP Hid Hty Ht Hl.
    apply (convert_fails_in_where sparql keywords parsed w st Hp Hin).
    intros st'.
    apply (parseWhereClause_without_label w t P pty type st' Hm Hc HP Hid Hty Ht Hl).
  - intros v opty st st' val. apply value_has_label.
Qed.

(** ** Basic patterns and unions *)

Local Abbreviation _addFilter := (@Converter._addFilter).
Local Abbreviation _setDomain := (_setDomain _schema).
Local Abbreviation _parseBasic := (_parseBasic _schema _wikidata_getLabel closest).
Local Abbreviation union_branch := (union_branch _schema _wikidata_getLabel closest).

Lemma atomFilter_frame (p : option string) (v : string) (st : state) :
  _atomFilter p v st
  = (fst (_atomFilter p v (mkState (_keywords st) [])), st).
Proof.
  unfold Converter._atomFilter. destruct p as [P|]; [|reflexivity].
  destruct (if String.eqb P "id" then _ else _) as [l ty].
  unfold bind, Converter._toThingTalkValue, option_map.
  destruct ty as [ty|]; [|reflexivity].
  destruct (elemType ty); try reflexivity.
  unfold bind, assert, ret, throw, get_keywords.
  destruct (startsWith v ENTITY_PREFIX); [|reflexivity].
  destruct (truthy _); reflexivity.
Qed.




(** The filters of the table of a subject, none when it has no table. *)
Local Abbreviation filters_of st s :=
  (match JsObject.get (_tables st) s with Some T => filters T | None => [] end).


(** *** Sequencing, once more *)

Lemma bind_inv {A B : Type} (m : M A) (k : A -> M B) (st st' : state) (b : B) :
  bind m k st = (Ok b, st') ->
  exists a st1, m st = (Ok a, st1) /\ k a st1 = (Ok b, st').
Proof.
  unfold bind. destruct (m st) as [[a|e] st1]; [|discriminate].
  intros H. now exists a, st1.
Qed.



(** *** Objects as the converter builds them *)

Lemma plain_nil {V : Type} : plain (@nil (string * V)).
Proof. split; constructor. Qed.

Lemma plain_set {V : Type} (obj : JsObject.t V) (key : string) (v : V) :
  plain obj ->
  JsObject.own obj key = true \/ JsObject.inherited key = false ->
  plain (JsObject.set obj key v).
Proof.
  intros [Hn Hi] Hk. split; [now apply JsObjectFacts.NoDup_set|].
  rewrite JsObjectFacts.keys_set.
  destruct (JsObject.own obj key) eqn:E; [exact Hi|].
  destruct Hk as [Hk|Hk]; [discriminate|].
  apply Forall_app. split; [exact Hi | now repeat constructor].
Qed.



Lemma plain_entries {V : Type} (obj : JsObject.t V) :
  plain obj -> plain (JsObject.entries obj).
Proof.
  intros [Hn Hi].
  pose proof (Permutation_map fst (JsObjectFacts.entries_perm obj)) as Hp.
  split.
  - apply (Permutation_NoDup (Permutation_sym Hp) Hn).
  - apply (Permutation_Forall (Permutation_sym Hp) Hi).
Qed.

(** The object [converted] of [_convertTriples]. *)
Local Abbreviation converted l :=
  (fold_left
     (fun c (kv : string * list BooleanExpression) =>
        JsObject.set c (fst kv) (conjunction (snd kv))) l []).


Lemma fold_set_plain (l : list (string * list BooleanExpression))
  (c0 : JsObject.t BooleanExpression) :
  Forall (fun k => JsObject.inherited k = false) (map fst l) ->
  plain c0 ->
  plain (fold_left (fun c kv => JsObject.set c (fst kv) (conjunction (snd kv))) l c0).
Proof.
  revert c0. induction l as [|[k fs] l IH]; intros c0 Hi Hc; [exact Hc|].
  inversion Hi; subst. simpl. apply IH; [assumption|].
  apply plain_set; [exact Hc | now right].
Qed.

(** *** Methods that keep the table of a subject *)

Lemma keeps_ret {A : Type} (x : string) (a : A) : keeps x (ret a).
Proof. intros st r st' H. inversion H. now split. Qed.


Lemma keeps_bind {A B : Type} (x : string) (m : M A) (k : A -> M B) :
  keeps x m -> (forall a, keeps x (k a)) -> keeps x (bind m k).
Proof.
  intros Hm Hk st r st' H. unfold bind in H.
  destruct (m st) as [[a|e] st1] eqn:E.
  - destruct (Hm _ _ _ E) as [K1 G1]. destruct (Hk a _ _ _ H) as [K2 G2].
    split; congruence.
  - inversion H; subst. exact (Hm _ _ _ E).
Qed.


Lemma keeps_for_of {A B : Type} (x : string) (body : A -> B -> M B) (l : list A) :
  (forall a, In a l -> forall acc, keeps x (body a acc)) ->
  forall acc, keeps x (for_of body l acc).
Proof.
  induction l as [|a l IH]; intros Hb acc; simpl.
  - apply keeps_ret.
  - apply keeps_bind; [apply Hb; now left|].
    apply IH. intros b Hin. apply Hb. now right.
Qed.

Lemma keeps_get_tables (x : string) : keeps x get_tables.
Proof. intros st r st' H. inversion H. now split. Qed.










Lemma push_filter_state (acc : JsObject.t (list BooleanExpression)) (s : string)
  (f : BooleanExpression) (st st' : state)
  (r : result (JsObject.t (list BooleanExpression))) :
  push_filter acc s f st = (r, st') -> st' = st.
Proof.
  unfold push_filter.
  destruct (JsObject.read _ s); unfold ret, throw; intros H; now inversion H.
Qed.


Local Abbreviation projection_and_verification :=
  (projection_and_verification _schema _wikidata_getLabel closest).



(** *** What a round of [_convertTriples] returns *)

Lemma yields_ret {A : Type} (Q : A -> Prop) (a : A) : Q a -> yields Q (ret a).
Proof. intros H st b st' E. inversion E. now subst. Qed.

Lemma yields_throw {A : Type} (Q : A -> Prop) (e : error) : yields Q (throw e).
Proof. intros st b st' E. discriminate. Qed.

Lemma yields_bind {A B : Type} (Q : B -> Prop) (m : M A) (k : A -> M B) :
  (forall a, yields Q (k a)) -> yields Q (bind m k).
Proof.
  intros Hk st b st' E. apply bind_inv in E.
  destruct E as [a [st1 [_ E]]]. exact (Hk a _ _ _ E).
Qed.

Lemma yields_convertTriple (Q : JsObject.t (list BooleanExpression) -> Prop)
  (t : triple) (acc : JsObject.t (list BooleanExpression)) :
  Q acc ->
  (forall f, yields Q (push_filter acc (value (subject t)) f)) ->
  yields Q (convertTriple t acc).
Proof.
  intros Ha Hp. unfold Converter.convertTriple.
  apply yields_bind. intros _.
  destruct (is_type (subject t) Variable_ && is_type (object t) NamedNode).
  - destruct (is_P31 (predicate t)).
    + apply yields_bind. intros _. now apply yields_ret.
    + apply yields_bind. intros f. intros st b st' E.
      apply bind_inv in E. destruct E as [fs [st1 [E1 E2]]].
      apply bind_inv in E2. destruct E2 as [u [st2 [_ E2]]].
      inversion E2; subst. exact (Hp f _ _ _ E1).
  - apply yields_bind. intros _. now apply yields_ret.
Qed.


Lemma push_filter_plain (s : string) (acc : JsObject.t (list BooleanExpression))
  (f : BooleanExpression) :
  plain acc -> yields plain (push_filter acc s f).
Proof.
  intros Hp st a st' E. unfold push_filter in E.
  rewrite JsObjectFacts.has_get in E. unfold JsObject.read in E.
  destruct (JsObject.get acc s) as [l|] eqn:G.
  - rewrite G in E. inversion E; subst.
    apply plain_set; [exact Hp|]. left. rewrite JsObjectFacts.own_get. now rewrite G.
  - destruct (JsObject.inherited s) eqn:I.
    + rewrite G in E. discriminate.
    + rewrite JsObjectFacts.get_set in E. inversion E; subst.
      apply plain_set; [apply plain_set; [exact Hp | now right] | now right].
Qed.


(** *** The loop of [_convertTriples] *)


Lemma loop_plain (triples : list triple) :
  forall acc st acc' st',
    plain acc ->
    for_of convertTriple triples acc st = (Ok acc', st') ->
    plain acc'.
Proof.
  induction triples as [|t l IH]; simpl; intros acc st acc' st' Hp H.
  - inversion H. now subst.
  - apply bind_inv in H. destruct H as [a1 [st1 [H1 H2]]].
    apply (IH _ _ _ _ (yields_convertTriple plain t acc Hp
                         (fun f => push_filter_plain _ acc f Hp) _ _ _ H1) H2).
Qed.

Lemma convertTriples_inv (triples : list triple) (st st' : state)
  (c : JsObject.t BooleanExpression) :
  _convertTriples triples st = (Ok c, st') ->
  exists acc,
    for_of convertTriple triples [] st = (Ok acc, st')
    /\ plain acc
    /\ c = converted (JsObject.entries acc).
Proof.
  unfold Converter._convertTriples. intros H. apply bind_inv in H.
  destruct H as [acc [st1 [H1 H2]]]. inversion H2; subst.
  exists acc. split; [exact H1|]. split; [|reflexivity].
  exact (loop_plain triples _ _ _ _ plain_nil H1).
Qed.


Lemma converted_plain (acc : JsObject.t (list BooleanExpression)) :
  plain acc -> plain (converted (JsObject.entries acc)).
Proof.
  intros Hp. apply fold_set_plain; [|apply plain_nil].
  exact (proj2 (plain_entries acc Hp)).
Qed.

(** The conditions that [_convertTriples] returns are those of distinct
    subjects, none of them a name that objects inherit. *)
Lemma convertTriples_plain (triples : list triple) (st st' : state)
  (c : JsObject.t BooleanExpression) :
  _convertTriples triples st = (Ok c, st') -> plain (JsObject.entries c).
Proof.
  intros H. destruct (convertTriples_inv triples st st' c H) as [acc [_ [Hp ->]]].
  apply plain_entries. now apply converted_plain.
Qed.

(** *** The table of a subject *)



Lemma addFilter_inv (s : string) (f : BooleanExpression) (st st' : state) :
  _addFilter s f st = (Ok tt, st') ->
  _keywords st' = _keywords st
  /\ exists T,
       JsObject.get (_tables st') s = Some T
       /\ filters T = filters_of st s ++ [f]
       /\ (forall T0, JsObject.get (_tables st) s = Some T0 -> domain T = domain T0).
Proof.
  unfold Converter._addFilter, _initTable, update_table, bind, get_tables,
    set_tables, ret, throw.
  rewrite JsObjectFacts.has_get. unfold JsObject.read.
  destruct (JsObject.get (_tables st) s) as [T0|] eqn:E.
  - rewrite E. intros H. inversion H. cbn [_tables _keywords].
    split; [reflexivity|]. eexists. rewrite JsObjectFacts.get_set.
    repeat split. intros T1 HT1. now inversion HT1.
  - destruct (JsObject.inherited s) eqn:I.
    + rewrite E. discriminate.
    + cbn [_tables]. rewrite JsObjectFacts.get_set.
      intros H. inversion H. cbn [_tables _keywords].
      split; [reflexivity|]. eexists. rewrite JsObjectFacts.get_set.
      repeat split. discriminate.
Qed.

Lemma addFilter_adds (s : string) (f : BooleanExpression) (st : state) :
  JsObject.inherited s = false ->
  exists st' T,
    _addFilter s f st = (Ok tt, st')
    /\ JsObject.get (_tables st') s = Some T
    /\ filters T = filters_of st s ++ [f]
    /\ (forall T0, JsObject.get (_tables st) s = Some T0 -> domain T = domain T0).
Proof.
  intros I.
  assert (H : exists st', _addFilter s f st = (Ok tt, st')).
  { unfold Converter._addFilter, _initTable, update_table, bind, get_tables,
      set_tables, ret.
    rewrite JsObjectFacts.has_get.
    destruct (JsObject.get (_tables st) s) as [T0|] eqn:E.
    - rewrite (JsObjectFacts.read_get _ _ _ E). eexists. reflexivity.
    - rewrite I. cbn [_tables].
      rewrite (JsObjectFacts.read_get _ _ _ (JsObjectFacts.get_set _ _ _)).
      eexists. reflexivity. }
  destruct H as [st' H]. destruct (addFilter_inv s f st st' H) as [_ [T HT]].
  exists st', T. split; [exact H | exact HT].
Qed.


(** *** The two triples of a variable *)



Section TwoTriples.

Variables x D P v : string.



Hypothesis P_not_P31 : P <> (PROPERTY_PREFIX ++ "P31")%string.










End TwoTriples.

(** *** Unions *)

Lemma union_subjects_same (ps : list pattern) (s : string)
  (l : list (string * BooleanExpression)) (ops : list BooleanExpression)
  (st : state) :
  s <> EmptyString ->
  (forall kv, In kv l -> fst kv = s) ->
  for_of (union_subject ps) l (Some s, ops) st
  = (Ok (Some s, ops ++ map snd l), st).
Proof.
  intros Hs. revert ops. induction l as [|kv l IH]; intros ops Hl; simpl.
  - now rewrite app_nil_r.
  - unfold union_subject at 1. destruct s as [|c r]; [congruence|].
    rewrite (Hl kv (or_introl eq_refl)), String.eqb_refl. simpl negb.
    unfold bind at 1 2. unfold ret at 1 2.
    rewrite IH; [|intros kv' Hin; apply Hl; now right].
    now rewrite <- app_assoc.
Qed.

Lemma union_subjects_differ (ps : list pattern) (s : string)
  (l : list (string * BooleanExpression)) (ops : list BooleanExpression)
  (st : state) :
  s <> EmptyString ->
  (exists kv, In kv l /\ fst kv <> s) ->
  for_of (union_subject ps) l (Some s, ops) st = (Err (MultipleSubject ps), st).
Proof.
  intros Hs. revert ops. induction l as [|kv l IH]; intros ops [kv' [Hin Hne]];
    [contradiction|].
  simpl. unfold union_subject at 1. destruct s as [|c r]; [congruence|].
  destruct (String.eqb_spec (fst kv) (String c r)) as [E|E]; simpl negb.
  - unfold bind at 1 2. unfold ret at 1 2. apply IH.
    destruct Hin as [<-|Hin]; [congruence|]. now exists kv'.
  - reflexivity.
Qed.

Lemma union_first_subject (ps : list pattern) (s : string) (f : BooleanExpression)
  (more : list (string * BooleanExpression)) (st : state) :
  for_of (union_subject ps) ((s, f) :: more) (None, []) st
  = for_of (union_subject ps) more (Some s, [f]) st.
Proof. reflexivity. Qed.

(** C4, amended: take a union of two basic patterns whose first branch is
    converted into the conditions of [s1] (not the empty name) and maybe of
    more subjects.  If the first branch has conditions for more subjects than
    [s1], or if [s1] is its only one and the second branch is converted into
    a condition for another subject, [_parseWhereClause] throws the
    multiple-subject error; if each branch is converted into the condition of
    [s1] alone it succeeds and adds to the filters of [s1] an [Or] of the two
    conditions, [f1] then [f2]. *)
Theorem union_needs_a_single_subject
  (b1 b2 : list triple) (c1 : JsObject.t BooleanExpression)
  (s1 : string) (f1 : BooleanExpression)
  (more : list (string * BooleanExpression)) (st0 st1 : state) :
  _convertTriples b1 st0 = (Ok c1, st1) ->
  JsObject.entries c1 = (s1, f1) :: more ->
  s1 <> EmptyString ->
  (more <> [] ->
   _parseWhereClause (Union [Bgp b1; Bgp b2]) st0
   = (Err (MultipleSubject [Bgp b1; Bgp b2]), st1))
  /\ (more = [] ->
      forall c2 st2,
        _convertTriples b2 st1 = (Ok c2, st2) ->
        ((exists kv, In kv (JsObject.entries c2) /\ fst kv <> s1) ->
         _parseWhereClause (Union [Bgp b1; Bgp b2]) st0
         = (Err (MultipleSubject [Bgp b1; Bgp b2]), st2))
        /\ (forall f2,
              JsObject.entries c2 = [(s1, f2)] ->
              exists st3 T,
                _parseWhereClause (Union [Bgp b1; Bgp b2]) st0 = (Ok tt, st3)
                /\ JsObject.get (_tables st3) s1 = Some T
                /\ filters T
                   = filters_of st2 s1 ++ [OrBooleanExpression [f1; f2]])).
Proof.
  intros H1 E1 Hne.
  destruct (convertTriples_plain b1 st0 st1 c1 H1) as [Hn Hi].
  rewrite E1 in Hn, Hi. simpl in Hn, Hi.
  inversion Hn as [|? ? Hk _]; subst. inversion Hi as [|? ? I1 _]; subst.
  unfold Converter._parseWhereClause, Converter._parseUnion.
  split.
  - intros Hm. apply bind_err. cbn [for_of]. apply bind_err.
    unfold Converter.union_branch. rewrite (bind_ok _ _ _ _ _ H1), E1.
    rewrite union_first_subject. apply union_subjects_differ; [exact Hne|].
    destruct more as [|kv more]; [congruence|].
    exists kv. split; [now left|]. intros E. apply Hk. left. exact E.
  - intros -> c2 st2 H2.
    assert (B1 : union_branch [Bgp b1; Bgp b2] (Bgp b1) (None, []) st0
                 = (Ok (Some s1, [f1]), st1)).
    { unfold Converter.union_branch. rewrite (bind_ok _ _ _ _ _ H1), E1.
      reflexivity. }
    split.
    + intros Hd. apply bind_err. cbn [for_of].
      rewrite (bind_ok _ _ _ _ _ B1). apply bind_err.
      unfold Converter.union_branch. rewrite (bind_ok _ _ _ _ _ H2).
      now apply union_subjects_differ.
    + intros f2 E2.
      destruct (addFilter_adds s1 (OrBooleanExpression [f1; f2]) st2 I1)
        as [st3 [T [Ha [Hg [Hf _]]]]].
      exists st3, T. split; [|split; assumption].
      assert (L : for_of (union_branch [Bgp b1; Bgp b2])
                    [Bgp b1; Bgp b2] (None, []) st0
                  = (Ok (Some s1, [f1; f2]), st2)).
      { cbn [for_of]. rewrite (bind_ok _ _ _ _ _ B1).
        erewrite bind_ok; [reflexivity|].
        unfold Converter.union_branch. rewrite (bind_ok _ _ _ _ _ H2), E2.
        rewrite (union_subjects_same _ s1 [(s1, f2)] [f1] st2 Hne);
          [reflexivity|].
        intros kv [<-|[]]. reflexivity. }
      rewrite (bind_ok _ _ _ _ _ L). exact Ha.
Qed.

End Conversion.

End ConverterFacts.

(* ================================================================= *)
(** * The properties on the queries of the fixture *)
(* ================================================================= *)

Module Checks.

Import Wikidata Converter ConverterSpec Fixture.




Lemma convert_question_excludes_projection_witness :
  run "question and projection" ["France"; "Europe"]
  = (Err AssertionError, snd (run "question and projection" ["France"; "Europe"]))
  /\ exists q, europe_program = makeProgram q /\ well_shaped q.
Proof.
  split.
  - eapply (proj1
              (ConverterFacts.convert_question_excludes_projection
                 schema parse getLabel rawTokens nearest notNumber
                 "question and projection" ["France"; "Europe"] (mkState [] []))
              question_and_projection ["c"]).
    + reflexivity.
    + vm_compute. reflexivity.
    + reflexivity.
    + vm_compute. left. reflexivity.
    + vm_compute. discriminate.
    + vm_compute. discriminate.
  - refine (proj2
              (ConverterFacts.convert_question_excludes_projection
                 schema parse getLabel rawTokens nearest notNumber
                 "countries of europe" ["Europe"] (mkState [] []))
              europe_program (snd (run "countries of europe" ["Europe"])) _).
    vm_compute. reflexivity.
Defined.

Lemma filter_clause_not_supported_witness :
  let e := EOperation ">" [ETerm (var "x"); ETerm (lit "3")] in
  run "with filter" ["USA"]
  = (Err (UnsupportedFilter (Filter e)), snd (run "with filter" ["USA"])).
Proof.
  intros e.
  refine (proj1 (proj2 (proj2
            (ConverterFacts.filter_clause_not_supported
               schema parse getLabel rawTokens nearest notNumber e)))
            "with filter" ["USA"] with_filter
            [Bgp [mkTriple (var "x") (wdt "P17") (wd "Q30")]] []
            (mkState [] []) _ _ _ _).
  - reflexivity.
  - reflexivity.
  - vm_compute. reflexivity.
Defined.

Lemma entity_without_label_aborts_witness :
  fails (convert schema parse getLabel rawTokens nearest notNumber
           "unknown entity" ["somewhere"]) (mkState [] [])
  /\ fst (run "unknown entity" ["somewhere"]) = Err AssertionError.
Proof.
  split; [|reflexivity].
  refine (proj1 (proj2
            (ConverterFacts.entity_without_label_aborts
               schema parse getLabel rawTokens nearest notNumber))
            "unknown entity" ["somewhere"] unknown_entity
            (Bgp [mkTriple (var "x") (wdt "P17") (wd "Q999")])
            (mkTriple (var "x") (wdt "P17") (wd "Q999"))
            (PROPERTY_PREFIX ++ "P17")%string
            (TEntity "org.wikidata:p_country") "org.wikidata:p_country"
            (mkState [] []) _ _ _ _ _ _ _ _ _).
  - reflexivity.
  - left. reflexivity.
  - left. reflexivity.
  - split; [reflexivity|]. right. split; reflexivity.
  - reflexivity.
  - discriminate.
  - reflexivity.
  - reflexivity.
  - reflexivity.
Defined.

(** C5 as it is written fails in two ways.  With no keyword to choose from,
    the entity of the countries of Europe is emitted with no display, its
    label being known.  And under a subject that is a blank node the object
    is not converted at all: the query goes through although the knowledge
    base has no label for the entity Q999 of its second triple. *)
Lemma entity_emitted_without_display :
  fst (run "countries of europe" [])
  = Ok (mkProgram
          [ChainExpression
             [FilterExpression (InvocationExpression (Some "country"))
                (AndBooleanExpression
                   [AtomBooleanExpression (Some "continent") "contains"
                      (Entity "Q46" "org.wikidata:p_continent" None)])]])
  /\ getLabel "Q46" = Some "Europe"
  /\ Replies.parse "under blank node"
     = Ok (select ["x"]
             [Bgp [mkTriple (var "x") (wdt "P17") (wd "Q30");
                   mkTriple (mkTerm BlankNode "b0") (wdt "P17") (wd "Q999")]])
  /\ getLabel "Q999" = None
  /\ getPropertyType schema "P17" = Some (TEntity "org.wikidata:p_country")
  /\ fst (convert schema Replies.parse getLabel rawTokens nearest notNumber
            "under blank node" ["USA"] (mkState [] []))
     = Ok (mkProgram
             [ChainExpression
                [FilterExpression (InvocationExpression (Some "entity"))
                   (AndBooleanExpression
                      [AtomBooleanExpression (Some "country") "=="
                         (Entity "Q30" "org.wikidata:p_country" (Some "USA"))])]]).
Proof. repeat split. Qed.



(** In a converter without tables the table of [x] is the only one and the
    atom is its only filter. *)
Example countries_of_europe_table :
  fold_clause
    (Bgp [mkTriple (var "x") (wdt "P31") (wd "Q6256");
          mkTriple (var "x") (wdt "P30") (wd "Q46")])
  = (Ok tt,
     mkState []
       [("x",
         mkTable (Some "country") []
           [AtomBooleanExpression (Some "continent") "contains"
              (Entity "Q46" "org.wikidata:p_continent" None)] [])]).
Proof. vm_compute. reflexivity. Qed.

(** C4 as it is written fails on a branch that only gives a domain: the two
    branches are about [x] and [y], and the conversion goes through, with an
    [Or] of one operand on [x]. *)
Lemma union_domain_branch_is_accepted :
  let usa := AtomBooleanExpression (Some "country") "=="
               (Entity "Q30" "org.wikidata:p_country" None) in
  fold_clause union_domain_branch
  = (Ok tt,
     mkState []
       [("y", mkTable (Some "city") [] [] []);
        ("x", mkTable (Some "entity") [] [OrBooleanExpression [usa]] [])])
  /\ ~ fails (_parseWhereClause schema getLabel nearest union_domain_branch)
         (mkState [] []).
Proof.
  split; [vm_compute; reflexivity|].
  intros [e [st H]]. vm_compute in H. discriminate H.
Qed.

Lemma union_needs_a_single_subject_witness :
  let usa := AtomBooleanExpression (Some "country") "=="
               (Entity "Q30" "org.wikidata:p_country" None) in
  let canada := AtomBooleanExpression (Some "country") "=="
                  (Entity "Q16" "org.wikidata:p_country" None) in
  fold_clause union_different
  = (Err (MultipleSubject
            [Bgp [mkTriple (var "x") (wdt "P17") (wd "Q30")];
             Bgp [mkTriple (var "y") (wdt "P17") (wd "Q16")]]),
     mkState [] [])
  /\ (exists st3 T,
        fold_clause union_same = (Ok tt, st3)
        /\ JsObject.get (_tables st3) "x" = Some T
        /\ filters T = [OrBooleanExpression [usa; canada]])
  /\ fold_clause Replies.union_two_in_branch
     = (Err (MultipleSubject
               [Bgp [mkTriple (var "x") (wdt "P17") (wd "Q30");
                     mkTriple (var "y") (wdt "P17") (wd "Q16")];
                Bgp [mkTriple (var "x") (wdt "P17") (wd "Q16")]]),
        mkState [] []).
Proof.
  intros usa canada. split; [|split].
  - refine (proj1
              (proj2
                 (ConverterFacts.union_needs_a_single_subject
                    schema getLabel nearest
                    [mkTriple (var "x") (wdt "P17") (wd "Q30")]
                    [mkTriple (var "y") (wdt "P17") (wd "Q16")]
                    [("x", usa)] "x" usa [] (mkState [] []) (mkState [] [])
                    _ _ _) eq_refl [("y", canada)] (mkState [] []) _) _).
    + reflexivity.
    + reflexivity.
    + discriminate.
    + reflexivity.
    + exists ("y", canada). split; [now left | discriminate].
  - refine (proj2
              (proj2
                 (ConverterFacts.union_needs_a_single_subject
                    schema getLabel nearest
                    [mkTriple (var "x") (wdt "P17") (wd "Q30")]
                    [mkTriple (var "x") (wdt "P17") (wd "Q16")]
                    [("x", usa)] "x" usa [] (mkState [] []) (mkState [] [])
                    _ _ _) eq_refl [("x", canada)] (mkState [] []) _) canada _).
    + reflexivity.
    + reflexivity.
    + discriminate.
    + reflexivity.
    + reflexivity.
  - refine (proj1
              (ConverterFacts.union_needs_a_single_subject
                 schema getLabel nearest
                 [mkTriple (var "x") (wdt "P17") (wd "Q30");
                  mkTriple (var "y") (wdt "P17") (wd "Q16")]
                 [mkTriple (var "x") (wdt "P17") (wd "Q16")]
                 [("x", usa); ("y", canada)] "x" usa [("y", canada)]
                 (mkState [] []) (mkState [] []) _ _ _) _).
    + reflexivity.
    + reflexivity.
    + discriminate.
    + discriminate.
Defined.

Lemma request_dist_throws_on_stored_text_witness :
  Dist._request JNull JSON_parse timing_out "https://query.wikidata.org/sparql?query=q"
    true 1 no_world
  = (Thrown SyntaxError,
     mkWorld
       [("https://query.wikidata.org/sparql?query=q",
         "java.util.concurrent.TimeoutException")]
       ["https://query.wikidata.org/sparql?query=q"] []).
Proof.
  refine (WikidataFacts.request_dist_throws_on_stored_text
            json JNull JSON_parse timing_out
            "https://query.wikidata.org/sparql?query=q"
            "java.util.concurrent.TimeoutException" no_world _ _ _);
    reflexivity.
Defined.

(** When the network is down the dist [_request] asks twice, logs and returns
    [null]; the [_request] of lib asks once. *)
Example request_offline :
  Dist._request JNull JSON_parse offline "https://www.wikidata.org/w/api.php" true 1
    no_world
  = (Returned JNull,
     mkWorld []
       ["https://www.wikidata.org/w/api.php"; "https://www.wikidata.org/w/api.php"]
       [LogText "Failed to retrieve result for: https://www.wikidata.org/w/api.php";
        LogExn HttpFailure])
  /\ _request JNull JSON_parse offline "https://www.wikidata.org/w/api.php" true
       no_world
     = (Returned JNull,
        mkWorld [] ["https://www.wikidata.org/w/api.php"]
          [LogText "Failed to retrieve result for: https://www.wikidata.org/w/api.php";
           LogExn HttpFailure]).
Proof. split; vm_compute; reflexivity. Qed.

Lemma similarity_bounds_witness :
  let similarity := Misc.similarity lower same without_stopwords same in
  (similarity (Misc.js "Eiffel Tower") (Misc.js "Eiffel Tower") Misc.f1 == 1)%Q
  /\ (similarity (Misc.js "Eiffel Tower") (Misc.js "Big Ben") Misc.f1 == 0)%Q
  /\ (similarity (Misc.js "the") (Misc.js "Tower of London") Misc.jaccard == 0)%Q.
Proof.
  intros similarity.
  destruct (MiscFacts.similarity_bounds lower same without_stopwords same)
    as [H1 [H2 H3]].
  split; [|split].
  - apply H1. vm_compute. discriminate.
  - apply H2. intros t Ht Hy. vm_compute in Ht, Hy.
    destruct Ht as [<-|[<-|[]]]; destruct Hy as [Hy|[Hy|[]]]; discriminate Hy.
  - apply H3. left. vm_compute. reflexivity.
Defined.

End Checks.

(* ================================================================= *)
(** * More properties of lib/utils/misc.ts *)
(* ================================================================= *)

Module MiscExtra.

Import Misc MiscSpec.

(** X1: [removeEndPunctuation] looks at the last code unit only: a final [.],
    [!] or [?] is dropped, whatever comes before it is kept, further marks
    included. *)
Theorem removeEndPunctuation_last_unit (u : jsstring) (c : N) :
  removeEndPunctuation (u ++ [c]) = if is_end_punct c then u else u ++ [c].
Proof.
  induction u as [|a u IH]; simpl.
  - reflexivity.
  - rewrite IH. destruct u; simpl; destruct (is_end_punct c); reflexivity.
Qed.

(** ** Spans *)

Lemma split_from_not_empty (b : bool) (cur s : jsstring) :
  split_from b cur s <> [].
Proof.
  revert b cur. induction s as [|c r IH]; intros b cur; simpl; [discriminate|].
  destruct (is_space c); [destruct b|]; try apply IH; discriminate.
Qed.

Lemma span_of_token (tokens : list jsstring) (i : nat) (t : jsstring) :
  nth_error tokens i = Some t -> span_at tokens (1, i) = t.
Proof.
  unfold span_at. simpl fst. simpl snd. revert i.
  induction tokens as [|a l IH]; intros [|i] H; simpl in *; try discriminate.
  - inversion H. destruct l; reflexivity.
  - apply (IH i H).
Qed.

(** X2: Every input has spans, the empty text too: each token is a span, and so
    is the whole list of tokens joined by single spaces. *)
Theorem getSpans_has_tokens_and_whole (s : jsstring) :
  let tokens := split_spaces (removeEndPunctuation s) in
  getSpans s <> []
  /\ (forall t, In t tokens -> In t (getSpans s))
  /\ In (join (js " ") tokens) (getSpans s).
Proof.
  intros tokens.
  assert (Hn : 1 <= List.length tokens).
  { pose proof (split_from_not_empty false [] (removeEndPunctuation s)) as H.
    unfold tokens, split_spaces. destruct (split_from false [] _); [congruence|].
    simpl. lia. }
  assert (Hall : In (join (js " ") tokens) (getSpans s)).
  { rewrite MiscFacts.getSpans_positions. fold tokens.
    apply in_map_iff. exists (List.length tokens, 0). split.
    - unfold span_at. simpl. now rewrite firstn_all.
    - apply MiscFacts.positions_In. lia. }
  split; [|split; [|exact Hall]].
  - intros E. rewrite E in Hall. contradiction.
  - intros t Ht. apply In_nth_error in Ht. destruct Ht as [i Hi].
    rewrite MiscFacts.getSpans_positions. fold tokens.
    apply in_map_iff. exists (1, i). split.
    + now apply span_of_token.
    + apply MiscFacts.positions_In.
      assert (i < List.length tokens) by (apply nth_error_Some; congruence). lia.
Qed.

(** ** Names *)

Lemma replace_from_keeps (P : N -> Prop) (pat rep : jsstring) (skip : nat)
  (s : jsstring) :
  Forall P rep -> Forall P s -> Forall P (replace_from pat rep skip s).
Proof.
  intros Hr. revert skip. induction s as [|c r IH]; intros skip Hs; simpl.
  - constructor.
  - inversion Hs; subst. destruct skip as [|k]; [|now apply IH].
    destruct (starts pat (c :: r)).
    + apply Forall_app. split; [assumption | now apply IH].
    + constructor; [assumption | now apply IH].
Qed.

Section NameFacts.

Variable toLowerCase : jsstring -> jsstring.
Variable normalizeNFD : jsstring -> jsstring.

(** X3: Whatever the input, a name made by [cleanName] is written with the
    letters a-z and A-Z, the digits 1-9 and the underscore only; the digit 0
    of the input is never kept. *)
Theorem cleanName_units (v : jsstring) :
  Forall name_unit (cleanName toLowerCase normalizeNFD v)
  /\ ~ In 48%N (cleanName toLowerCase normalizeNFD v).
Proof.
  assert (H : Forall name_unit (cleanName toLowerCase normalizeNFD v)).
  { unfold cleanName, replace_all. apply replace_from_keeps.
    - replace (js "_") with [95%N] by reflexivity.
      constructor; [now right | constructor].
    - apply Forall_forall. intros c Hc. apply in_map_iff in Hc.
      destruct Hc as [d [Hd _]]. subst c. unfold name_unit.
      destruct (is_name_unit d) eqn:E; [now left | now right]. }
  split; [exact H|].
  intros Hin. rewrite Forall_forall in H. destruct (H _ Hin) as [E|E]; discriminate.
Qed.

End NameFacts.

(** ** Similarity *)

Lemma of_length_nonneg {A : Type} (l : list A) : (0 <= of_length l)%Q.
Proof. unfold of_length, Qle. simpl. lia. Qed.

Lemma quotient_nonneg (a b : Q) : (0 <= a)%Q -> (0 <= b)%Q -> (0 <= a / b)%Q.
Proof.
  intros Ha Hb. unfold Qdiv. apply Qmult_le_0_compat; [assumption|].
  now apply Qinv_le_0_compat.
Qed.

Section SimilarityMore.

Variable toLowerCase : jsstring -> jsstring.
Variable normalizeNFD : jsstring -> jsstring.
Variable removeStopwords : list jsstring -> list jsstring.
Variable stemmer : jsstring -> jsstring.

Local Abbreviation similarity :=
  (similarity toLowerCase normalizeNFD removeStopwords stemmer).

(** X4: No similarity is negative, for both measures, whatever the tools for
    lower case, decomposition, stop words and stemming do. *)
Theorem similarity_nonneg (s1 s2 : jsstring) (alg : algorithm) :
  (0 <= similarity s1 s2 alg)%Q.
Proof.
  unfold Misc.similarity.
  destruct (cleaned _ _ _ _ s1) as [|a l]; [apply Qle_refl|].
  destruct (cleaned _ _ _ _ s2) as [|b m]; [apply Qle_refl|].
  destruct alg.
  - apply quotient_nonneg; apply of_length_nonneg.
  - destruct (_ || _); [apply Qle_refl|].
    apply quotient_nonneg.
    + apply Qmult_le_0_compat; [apply Qmult_le_0_compat; [discriminate|]|];
        apply quotient_nonneg; apply of_length_nonneg.
    + replace 0%Q with (0 + 0)%Q by reflexivity.
      apply Qplus_le_compat; apply quotient_nonneg; apply of_length_nonneg.
Qed.

End SimilarityMore.

End MiscExtra.

(* ================================================================= *)
(** * More properties of lib/utils/wikidata.ts *)
(* ================================================================= *)

Module WikidataExtra.

Import Misc Wikidata WikidataUtils WikidataSpec.

(** ** The normal form of a URL *)

Local Abbreviation collapse := (replace_runs_from is_space (js " ")).

Lemma collapse_again (s : jsstring) :
  collapse true (collapse true s) = collapse true s
  /\ collapse false (collapse false s) = collapse false s
  /\ collapse false (collapse true s) = collapse true s.
Proof.
  induction s as [|c r [I1 [I2 I3]]]; simpl; [repeat split|].
  destruct (is_space c) eqn:E; simpl.
  - rewrite I1, I3. repeat split.
  - rewrite E, I2. repeat split.
Qed.

Lemma collapse_spaces (b : bool) (s : jsstring) :
  Forall (fun c => is_space c = true -> c = 32%N) (collapse b s).
Proof.
  revert b. induction s as [|c r IH]; intros b; simpl; [constructor|].
  destruct (is_space c) eqn:E.
  - destruct b; [apply IH|]. simpl. constructor; [reflexivity | apply IH].
  - constructor; [congruence | apply IH].
Qed.

Lemma trim_end_again (s : jsstring) : trim_end (trim_end s) = trim_end s.
Proof.
  induction s as [|c r IH]; simpl; [reflexivity|].
  destruct (trim_end r) as [|d r'] eqn:E.
  - destruct (is_space c) eqn:Ec; simpl; [reflexivity | now rewrite Ec].
  - simpl in *. now rewrite IH.
Qed.

Lemma trim_start_head (s : jsstring) :
  match trim_start s with [] => True | c :: _ => is_space c = false end.
Proof.
  induction s as [|c r IH]; simpl; [exact I|].
  destruct (is_space c) eqn:E; [exact IH | exact E].
Qed.

Lemma trim_end_head (s : jsstring) :
  match s with [] => True | c :: _ => is_space c = false end ->
  match trim_end s with [] => True | c :: _ => is_space c = false end.
Proof.
  destruct s as [|c r]; simpl; [auto|]. intros E.
  destruct (trim_end r); [rewrite E|]; exact E.
Qed.

Lemma head_trim_start (s : jsstring) :
  match s with [] => True | c :: _ => is_space c = false end -> trim_start s = s.
Proof. destruct s as [|c r]; simpl; [auto|]. now intros ->. Qed.

Lemma collapse_head (s : jsstring) :
  match s with [] => True | c :: _ => is_space c = false end ->
  match collapse false s with [] => True | c :: _ => is_space c = false end.
Proof. destruct s as [|c r]; simpl; [auto|]. intros E. now rewrite E. Qed.

Lemma trim_end_cons (c : N) (r : jsstring) :
  trim_end (c :: r) = c :: r ->
  (r = [] /\ is_space c = false) \/ (r <> [] /\ trim_end r = r).
Proof.
  simpl. destruct (trim_end r) as [|d r'] eqn:E.
  - destruct (is_space c) eqn:Ec; [discriminate|]. intros H. inversion H.
    left. now split.
  - intros H. inversion H. right. split; [congruence | reflexivity].
Qed.

Lemma collapse_not_empty (b : bool) (s : jsstring) :
  trim_end s = s -> s <> [] -> collapse b s <> [].
Proof.
  revert b. induction s as [|c r IH]; intros b Ht Hne; [congruence|].
  simpl. destruct (is_space c) eqn:E; [|discriminate].
  destruct (trim_end_cons c r Ht) as [[-> Hc]|[Hr Htr]]; [congruence|].
  destruct b; [now apply IH | discriminate].
Qed.

Lemma collapse_tail (b : bool) (s : jsstring) :
  trim_end s = s -> trim_end (collapse b s) = collapse b s.
Proof.
  revert b. induction s as [|c r IH]; intros b Ht; [reflexivity|].
  destruct (trim_end_cons c r Ht) as [[-> Hc]|[Hr Htr]].
  - simpl. rewrite Hc. simpl. now rewrite Hc.
  - simpl. destruct (is_space c) eqn:E.
    + pose proof (collapse_not_empty true r Htr Hr) as Hn.
      destruct b; [now apply IH|].
      simpl. rewrite (IH true Htr).
      destruct (collapse true r); [congruence | reflexivity].
    + pose proof (collapse_not_empty false r Htr Hr) as Hn.
      simpl. rewrite (IH false Htr).
      destruct (collapse false r); [congruence | reflexivity].
Qed.

(** X7: A normalized URL is in normal form: it is trimmed, its only white space
    is the space, and normalizing it again changes nothing. *)
Theorem normalizeURL_normal_form (url : jsstring) :
  normalizeURL (normalizeURL url) = normalizeURL url
  /\ trim (normalizeURL url) = normalizeURL url
  /\ Forall (fun c => is_space c = true -> c = 32%N) (normalizeURL url).
Proof.
  unfold normalizeURL, replace_runs.
  assert (Ht : trim (collapse false (trim url)) = collapse false (trim url)).
  { unfold trim at 1. rewrite head_trim_start.
    - apply collapse_tail. unfold trim. apply trim_end_again.
    - apply collapse_head. unfold trim. apply trim_end_head, trim_start_head. }
  split; [|split; [exact Ht | apply collapse_spaces]].
  rewrite Ht. apply collapse_again.
Qed.

(** ** The request primitive and its cache *)

Section RequestMore.

Variable json : Type.
Variable null : json.
Variable JSON_parse : string -> option json.
Variable Http_get : nat -> string -> option string.

Local Abbreviation fetch := (fetch JSON_parse Http_get).
Local Abbreviation request_lib := (Wikidata._request null JSON_parse Http_get).
Local Abbreviation request_dist := (Dist._request null JSON_parse Http_get).

Lemma getCache_stored (url body : string) (w : world) (f : list string)
  (c : list log_line) :
  _getCache url w = None ->
  _getCache url (mkWorld (http_requests w ++ [(url, body)]) f c) = Some body.
Proof.
  unfold _getCache. cbn [http_requests]. intros H.
  rewrite WikidataFacts.find_after.
  - simpl. now rewrite String.eqb_refl.
  - destruct (find _ (http_requests w)); [discriminate | reflexivity].
Qed.

Lemma fetch_stores (url body : string) (v : json) (w : world) :
  _getCache url w = None ->
  Http_get (List.length (fetched w)) url = Some body ->
  JSON_parse body = Some v ->
  fetch url true w
  = (Returned v,
     mkWorld (http_requests w ++ [(url, body)]) (fetched w ++ [url]) (console w)).
Proof.
  intros Hm Hg Hp. unfold Wikidata.fetch, _setCache. rewrite Hg.
  assert (Hm' : _getCache url
                  (mkWorld (http_requests w) (fetched w ++ [url]) (console w))
                = None) by exact Hm.
  rewrite Hm'. cbn [http_requests fetched console]. now rewrite Hp.
Qed.

(** X8: Round trip through the cache, lib/utils/wikidata.ts: a request that is
    answered and parsed is stored, and asking again gives the same value
    without a GET. *)
Theorem request_lib_cache_round_trip (url body : string) (v : json) (w : world) :
  _getCache url w = None ->
  Http_get (List.length (fetched w)) url = Some body ->
  JSON_parse body = Some v ->
  exists w1,
    request_lib url true w = (Returned v, w1)
    /\ fetched w1 = fetched w ++ [url]
    /\ request_lib url true w1 = (Returned v, w1).
Proof.
  intros Hm Hg Hp. eexists. split; [|split].
  - unfold Wikidata._request. rewrite Hm, (fetch_stores url body v w Hm Hg Hp).
    reflexivity.
  - reflexivity.
  - unfold Wikidata._request. rewrite (getCache_stored url body w _ _ Hm), Hp.
    reflexivity.
Qed.

(** X9: The same round trip for dist/lib/utils/wikidata.js. *)
Theorem request_dist_cache_round_trip (url body : string) (v : json) (w : world) :
  _getCache url w = None ->
  Http_get (List.length (fetched w)) url = Some body ->
  JSON_parse body = Some v ->
  exists w1,
    request_dist url true 1 w = (Returned v, w1)
    /\ fetched w1 = fetched w ++ [url]
    /\ request_dist url true 1 w1 = (Returned v, w1).
Proof.
  intros Hm Hg Hp. eexists. split; [|split].
  - simp _request. rewrite Hm. simp _request.
    rewrite (fetch_stores url body v w Hm Hg Hp). simp _request. reflexivity.
  - reflexivity.
  - simp _request. rewrite (getCache_stored url body w _ _ Hm). simp _request.
    rewrite Hp. simp _request. reflexivity.
Qed.

Lemma fetch_uncached (url : string) (w : world) :
  http_requests (snd (fetch url false w)) = http_requests w.
Proof.
  unfold Wikidata.fetch. destruct (Http_get _ url) as [body|]; [|reflexivity].
  destruct (JSON_parse body); reflexivity.
Qed.

(** X10: Without caching the request primitive of lib neither reads nor writes the
    cache, and it never throws. *)
Theorem request_lib_without_cache (url : string) (w : world) :
  exists v w1,
    request_lib url false w = (Returned v, w1)
    /\ http_requests w1 = http_requests w.
Proof.
  unfold Wikidata._request.
  pose proof (fetch_uncached url w) as H.
  destruct (fetch url false w) as [[v|e] w1]; eexists _, _; split;
    try reflexivity; exact H.
Qed.

(** X11: Without caching the request primitive of dist neither reads nor writes
    the cache, and it never throws. *)
Theorem request_dist_without_cache (url : string) (w : world) :
  exists v w1,
    request_dist url false 1 w = (Returned v, w1)
    /\ http_requests w1 = http_requests w.
Proof.
  simp _request.
  pose proof (fetch_uncached url w) as H1.
  destruct (fetch url false w) as [[v|e] w1]; simp _request.
  - eexists _, _. split; [reflexivity | exact H1].
  - destruct (lt_dec 1 2) as [Hlt|Hge]; [|lia]. simp _request.
    pose proof (fetch_uncached url w1) as H2.
    destruct (fetch url false w1) as [[v|e2] w2]; simp _request.
    + eexists _, _. split; [reflexivity|]. cbn [snd] in *. congruence.
    + destruct (lt_dec (1 + 1) 2) as [Hlt'|Hge]; [lia|]. simp _request.
      eexists _, _. split; [reflexivity|]. cbn [snd log http_requests] in *.
      congruence.
Qed.

End RequestMore.

(** ** The accessors *)

Section AccessorFacts.

Variable JSON_parse : string -> option JSON.
Variable Http_get : nat -> string -> option string.
Variable encodeURIComponent : Misc.jsstring -> string.
Variable getEntities : list string -> string -> option string.

Local Abbreviation _request := (WikidataUtils._request JSON_parse Http_get).
Local Abbreviation _query := (_query JSON_parse Http_get encodeURIComponent).
Local Abbreviation query_url := (query_url encodeURIComponent).
Local Abbreviation getPropertyValue :=
  (getPropertyValue JSON_parse Http_get encodeURIComponent).
Local Abbreviation getDomain := (getDomain JSON_parse Http_get encodeURIComponent).
Local Abbreviation getLabel := (getLabel JSON_parse Http_get getEntities).

Lemma request_rejected (url : string) (w : world) :
  _getCache url w = None ->
  Http_get (List.length (fetched w)) url = None ->
  _request url true w = (Done JNull, after_rejection url w).
Proof.
  intros Hm Hg. unfold WikidataUtils._request.
  rewrite (WikidataFacts.request_lib_rejected JSON JNull JSON_parse Http_get
             url true w Hm Hg).
  reflexivity.
Qed.

(** X13: [getLabel] answers [null] for an id without the shape of an id, and asks
    nothing; for an id with that shape that wikibase-sdk rejects, it throws
    the error of wikibase-sdk and asks nothing; and when the cache has no row
    for the URL and the GET is rejected, it answers [null] after one GET, the
    two failures on the console. *)
Theorem getLabel_null_or_invalid_id (id : string) (w : world) :
  (test_id id = false -> getLabel id w = (Done null, w))
  /\ (test_id id = true ->
      getEntities [id] "labels" = None ->
      getLabel id w = (Raise InvalidEntityId, w))
  /\ (forall url,
        test_id id = true ->
        getEntities [id] "labels" = Some url ->
        _getCache url w = None ->
        Http_get (List.length (fetched w)) url = None ->
        getLabel id w
        = (Done null,
           log [LogText ("Failed to retrieve label for " ++ id)%string]
             (after_rejection url w))).
Proof.
  split; [|split].
  - intros H. unfold WikidataUtils.getLabel. now rewrite H.
  - intros Ht He. unfold WikidataUtils.getLabel. now rewrite Ht, He.
  - intros url Ht He Hm Hg. unfold WikidataUtils.getLabel. rewrite Ht, He.
    cbn [negb]. unfold bind.
    rewrite (request_rejected _ w Hm Hg). reflexivity.
Qed.

(** X14: When the GET of a query is rejected, [_query], [getPropertyValue] and
    [getDomain] throw a [TypeError]: they read [results] of the [null] that
    the request primitive returned. *)
Theorem query_rejected_throws (sparql entityId propertyId : string) (w : world) :
  (_getCache (query_url sparql) w = None ->
   Http_get (List.length (fetched w)) (query_url sparql) = None ->
   _query sparql w = (Raise TypeError, after_rejection (query_url sparql) w))
  /\ (forall url,
        url = query_url
                ("SELECT ?v WHERE { wd:" ++ entityId ++ " wdt:" ++ propertyId
                 ++ " ?v. }")%string ->
        _getCache url w = None ->
        Http_get (List.length (fetched w)) url = None ->
        getPropertyValue entityId propertyId w
        = (Raise TypeError, after_rejection url w))
  /\ (forall url,
        url = query_url
                ("SELECT ?v WHERE { wd:" ++ entityId ++ " wdt:" ++ "P31"
                 ++ " ?v. }")%string ->
        _getCache url w = None ->
        Http_get (List.length (fetched w)) url = None ->
        getDomain entityId w = (Raise TypeError, after_rejection url w)).
Proof.
  assert (Q : forall q, _getCache (query_url q) w = None ->
                Http_get (List.length (fetched w)) (query_url q) = None ->
                _query q w = (Raise TypeError, after_rejection (query_url q) w)).
  { intros q Hm Hg. unfold WikidataUtils._query, bind.
    rewrite (request_rejected _ w Hm Hg). reflexivity. }
  split; [apply Q | split].
  - intros url -> Hm Hg. unfold WikidataUtils.getPropertyValue, bind.
    rewrite (Q _ Hm Hg). reflexivity.
  - intros url -> Hm Hg.
    unfold WikidataUtils.getDomain, WikidataUtils.getPropertyValue, bind.
    rewrite (Q _ Hm Hg). reflexivity.
Qed.

Lemma includes_member (l : list JSON) (text : string) :
  includes l text = true -> In (JString text) l.
Proof.
  unfold includes. intros H. apply existsb_exists in H.
  destruct H as [v [Hin Hv]]. destruct v; try discriminate.
  apply String.eqb_eq in Hv. now subst.
Qed.

(** X15: When the entity has no domain, one domain, or Q5 or Q16521 among its
    domains, [getDomain] asks nothing more than the domains: it answers
    [null] when there is none and one of them otherwise, the only one when
    there is one, else Q5 before Q16521. *)
Theorem getDomain_without_counting (entityId : string) (domains : list JSON)
  (w w1 : world) :
  getPropertyValue entityId "P31" w = (Done domains, w1) ->
  List.length domains <= 1 \/ includes domains "Q5" = true
  \/ includes domains "Q16521" = true ->
  exists d,
    getDomain entityId w = (Done d, w1)
    /\ (domains = [] -> d = JNull)
    /\ (domains <> [] -> In d domains)
    /\ (2 <= List.length domains -> includes domains "Q5" = true -> d = JString "Q5")
    /\ (2 <= List.length domains -> includes domains "Q5" = false ->
        d = JString "Q16521").
Proof.
  intros Hp Hc. unfold WikidataUtils.getDomain, bind. rewrite Hp.
  destruct domains as [|d1 [|d2 rest]].
  - exists JNull. repeat split; intros; simpl in *; try congruence; lia.
  - exists d1. repeat split; intros; simpl in *; try congruence; try lia; auto.
  - destruct (includes (d1 :: d2 :: rest) "Q5") eqn:E5.
    + exists (JString "Q5"). repeat split; intros; try congruence.
      now apply includes_member.
    + destruct Hc as [Hc|[Hc|Hc]]; [simpl in Hc; lia | discriminate |].
      rewrite Hc. exists (JString "Q16521"). repeat split; intros; try congruence.
      now apply includes_member.
Qed.

End AccessorFacts.

End WikidataExtra.

(* ================================================================= *)
(** * More properties of lib/converter.ts *)
(* ================================================================= *)

Module ConverterExtra.

Import Wikidata Converter ConverterSpec.

(** ** Objects and growing tables *)

Lemma grows_refl (T : Table) : grows T T.
Proof. repeat split; exists []; now rewrite app_nil_r. Qed.

Lemma grows_trans (T1 T2 T3 : Table) : grows T1 T2 -> grows T2 T3 -> grows T1 T3.
Proof.
  intros [[p1 P1] [[f1 F1] [v1 V1]]] [[p2 P2] [[f2 F2] [v2 V2]]].
  repeat split.
  - exists (p1 ++ p2). now rewrite P2, P1, app_assoc.
  - exists (f1 ++ f2). now rewrite F2, F1, app_assoc.
  - exists (v1 ++ v2). now rewrite V2, V1, app_assoc.
Qed.

Lemma extends_refl (st : state) : extends st st.
Proof.
  split; [reflexivity|]. intros s T H. exists T. split; [exact H | apply grows_refl].
Qed.

Lemma extends_trans (st1 st2 st3 : state) :
  extends st1 st2 -> extends st2 st3 -> extends st1 st3.
Proof.
  intros [K1 H1] [K2 H2]. split; [congruence|].
  intros s T H. destruct (H1 s T H) as [T2 [G2 L2]].
  destruct (H2 s T2 G2) as [T3 [G3 L3]].
  exists T3. split; [exact G3 | now apply grows_trans with T2].
Qed.

Lemma extends_set (st : state) (s : string) (T' : Table) :
  (forall T, JsObject.get (_tables st) s = Some T -> grows T T') ->
  extends st (mkState (_keywords st) (JsObject.set (_tables st) s T')).
Proof.
  intros H. split; [reflexivity|]. intros k T Hk. cbn [_tables].
  destruct (String.eqb_spec k s) as [->|Hne].
  - rewrite JsObjectFacts.get_set. exists T'. split; [reflexivity | now apply H].
  - rewrite JsObjectFacts.get_set_other by congruence. exists T. split; [exact Hk | apply grows_refl].
Qed.

(** ** Methods that only extend the state *)

Lemma extending_ret {A : Type} (a : A) : extending (ret a).
Proof. intros st r st' H. inversion H. apply extends_refl. Qed.

Lemma extending_throw {A : Type} (e : error) : extending (@throw A e).
Proof. intros st r st' H. inversion H. apply extends_refl. Qed.

Lemma extending_bind {A B : Type} (m : M A) (k : A -> M B) :
  extending m -> (forall a, extending (k a)) -> extending (bind m k).
Proof.
  intros Hm Hk st r st' H. unfold bind in H.
  destruct (m st) as [[a|e] st1] eqn:E.
  - apply extends_trans with st1; [exact (Hm _ _ _ E) | exact (Hk a _ _ _ H)].
  - inversion H; subst. exact (Hm _ _ _ E).
Qed.

Lemma extending_assert (b : bool) : extending (assert b).
Proof. destruct b; [apply extending_ret | apply extending_throw]. Qed.

Lemma extending_when (b : bool) (m : M unit) : extending m -> extending (when b m).
Proof. destruct b; [trivial | intros _; apply extending_ret]. Qed.

Lemma extending_for_of {A B : Type} (body : A -> B -> M B) (l : list A) :
  (forall x acc, extending (body x acc)) -> forall acc, extending (for_of body l acc).
Proof.
  intros Hb. induction l as [|x l IH]; intros acc; simpl.
  - apply extending_ret.
  - apply extending_bind; [apply Hb | exact IH].
Qed.

Lemma extending_for_each {A : Type} (body : A -> M unit) (l : list A) :
  (forall x, extending (body x)) -> extending (for_each body l).
Proof. intros Hb. apply extending_for_of. intros x _. apply Hb. Qed.

Lemma extending_get_tables : extending get_tables.
Proof. intros st r st' H. inversion H. apply extends_refl. Qed.

Lemma extending_get_keywords : extending get_keywords.
Proof. intros st r st' H. inversion H. apply extends_refl. Qed.

Lemma extending_initTable (s : string) : extending (_initTable s).
Proof.
  intros st r st' H.
  unfold _initTable, bind, get_tables, set_tables, ret in H.
  rewrite JsObjectFacts.has_get in H.
  destruct (JsObject.get (_tables st) s) eqn:E;
    [|destruct (JsObject.inherited s)]; inversion H.
  - apply extends_refl.
  - apply extends_refl.
  - apply extends_set. intros T HT. congruence.
Qed.

Lemma extending_update_table (s : string) (f : Table -> Table) :
  (forall T, grows T (f T)) -> extending (update_table s f).
Proof.
  intros Hf st r st' H.
  unfold update_table, bind, get_tables, set_tables, throw, JsObject.read in H.
  destruct (JsObject.get (_tables st) s) as [T|] eqn:E;
    [|destruct (JsObject.inherited s)]; inversion H.
  - apply extends_set. intros T0 HT. replace T0 with T by congruence. apply Hf.
  - apply extends_refl.
  - apply extends_refl.
Qed.

Lemma extending_addFilter (s : string) (f : BooleanExpression) :
  extending (_addFilter s f).
Proof.
  apply extending_bind; [apply extending_initTable|]. intros _.
  apply extending_update_table. intros T.
  repeat split; cbn; try (exists []; now rewrite app_nil_r). now exists [f].
Qed.

Lemma extending_addProjection (s : string) (p : Projection) :
  extending (_addProjection s p).
Proof.
  apply extending_bind; [apply extending_initTable|]. intros _.
  apply extending_update_table. intros T.
  repeat split; cbn; try (exists []; now rewrite app_nil_r). now exists [p].
Qed.

Lemma extending_addVerification (s : string) (v : BooleanExpression) :
  extending (_addVerification s v).
Proof.
  apply extending_bind; [apply extending_initTable|]. intros _.
  apply extending_update_table. intros T.
  repeat split; cbn; try (exists []; now rewrite app_nil_r). now exists [v].
Qed.

Section Methods.

Variable _schema : WikiSchema.
Variable _parser_parse : string -> result SelectQuery.
Variable _wikidata_getLabel : string -> option string.
Variable _tokenizer_rawTokens : string -> list string.
Variable closest : string -> list string -> option string.
Variable isNaN : string -> bool.

Local Abbreviation convert :=
  (convert _schema _parser_parse _wikidata_getLabel _tokenizer_rawTokens closest isNaN).
Local Abbreviation parse_clauses :=
  (parse_clauses _schema _wikidata_getLabel closest isNaN).
Local Abbreviation _parseWhereClause :=
  (_parseWhereClause _schema _wikidata_getLabel closest).
Local Abbreviation _parseHavingClause := (_parseHavingClause isNaN).
Local Abbreviation reset_state := (reset_state _tokenizer_rawTokens).
Local Abbreviation _toThingTalkValue :=
  (_toThingTalkValue _wikidata_getLabel closest).
Local Abbreviation _atomFilter := (_atomFilter _schema _wikidata_getLabel closest).
Local Abbreviation convertTriple := (convertTriple _schema _wikidata_getLabel closest).
Local Abbreviation _convertTriples := (_convertTriples _schema _wikidata_getLabel closest).
Local Abbreviation _setDomain := (_setDomain _schema).
Local Abbreviation projection_and_verification :=
  (projection_and_verification _schema _wikidata_getLabel closest).
Local Abbreviation union_branch := (union_branch _schema _wikidata_getLabel closest).
Local Abbreviation _parseUnion := (_parseUnion _schema _wikidata_getLabel closest).
Local Abbreviation _parseBasic := (_parseBasic _schema _wikidata_getLabel closest).

Lemma extending_setDomain (s d : string) : extending (_setDomain s d).
Proof.
  apply extending_bind; [apply extending_initTable|]. intros _.
  intros st r st' H.
  unfold bind, get_tables, set_tables, ret, throw, JsObject.read in H.
  destruct (JsObject.get (_tables st) s) as [T|] eqn:E;
    [|destruct (JsObject.inherited s)]; inversion H.
  - apply extends_set. intros T0 HT. replace T0 with T by congruence.
    repeat split; cbn; exists []; now rewrite app_nil_r.
  - apply extends_refl.
  - apply extends_refl.
Qed.

Lemma extending_push_filter (acc : JsObject.t (list BooleanExpression))
  (s : string) (f : BooleanExpression) :
  extending (push_filter acc s f).
Proof.
  intros st r st' H.
  rewrite (ConverterFacts.push_filter_state acc s f st st' r H).
  apply extends_refl.
Qed.

Lemma atomFilter_keeps (p : option string) (v : string) (st st' : state)
  (r : result BooleanExpression) :
  _atomFilter p v st = (r, st') -> st' = st.
Proof.
  intros H. rewrite ConverterFacts.atomFilter_frame in H. now inversion H.
Qed.

Lemma extending_atomFilter (p : option string) (v : string) :
  extending (_atomFilter p v).
Proof.
  intros st r st' H. rewrite (atomFilter_keeps p v st st' r H). apply extends_refl.
Qed.

Lemma extending_projection_and_verification (t : triple) :
  extending (projection_and_verification t).
Proof.
  unfold Converter.projection_and_verification.
  apply extending_bind.
  - apply extending_when. destruct (predicate_value (predicate t)).
    + apply extending_addProjection.
    + apply extending_throw.
  - intros _. apply extending_when. apply extending_bind.
    + apply extending_atomFilter.
    + intros f. apply extending_addVerification.
Qed.

Lemma extending_convertTriple (t : triple)
  (acc : JsObject.t (list BooleanExpression)) :
  extending (convertTriple t acc).
Proof.
  unfold Converter.convertTriple. apply extending_bind.
  - apply extending_when. apply extending_bind.
    + apply extending_atomFilter.
    + intros f. apply extending_addFilter.
  - intros _.
    destruct (is_type (subject t) Variable_ && is_type (object t) NamedNode).
    + destruct (is_P31 (predicate t)).
      * apply extending_bind; [apply extending_setDomain|].
        intros _. apply extending_ret.
      * apply extending_bind; [apply extending_atomFilter|]. intros f.
        apply extending_bind; [apply extending_push_filter|]. intros fs.
        apply extending_bind; [apply extending_projection_and_verification|].
        intros _. apply extending_ret.
    + apply extending_bind; [apply extending_projection_and_verification|].
      intros _. apply extending_ret.
Qed.

Lemma extending_convertTriples (triples : list triple) :
  extending (_convertTriples triples).
Proof.
  apply extending_bind.
  - apply extending_for_of. apply extending_convertTriple.
  - intros f. apply extending_ret.
Qed.

Lemma extending_union_branch (ps : list pattern) (p : pattern)
  (acc : option string * list BooleanExpression) :
  extending (union_branch ps p acc).
Proof.
  unfold Converter.union_branch. destruct p; try apply extending_throw.
  apply extending_bind; [apply extending_convertTriples|]. intros f.
  apply extending_for_of. intros [s c] [existed operands].
  unfold union_subject. apply extending_bind.
  - destruct existed as [[|ch r]|]; try apply extending_ret.
    destruct (negb _); [apply extending_throw | apply extending_ret].
  - intros e. apply extending_ret.
Qed.

Lemma extending_parseWhereClause (w : pattern) : extending (_parseWhereClause w).
Proof.
  destruct w as [triples|patterns|e|ty]; try apply extending_throw.
  - apply extending_bind; [apply extending_convertTriples|]. intros f.
    apply extending_for_each. intros kv. apply extending_addFilter.
  - apply extending_bind.
    + apply extending_for_of. apply extending_union_branch.
    + intros acc. apply extending_addFilter.
Qed.

Ltac extend :=
  repeat first
    [ apply extending_ret
    | apply extending_throw
    | apply extending_assert
    | apply extending_get_tables
    | apply extending_addFilter
    | apply extending_bind; [|intros ?]
    | match goal with
      | |- extending (match ?x with _ => _ end) => destruct x
      end ].

Lemma extending_parseHavingClause (h : expression) (g : grouping) :
  extending (_parseHavingClause h g).
Proof. unfold Converter._parseHavingClause. extend. Qed.

Lemma extending_parse_clauses (parsed : SelectQuery) :
  extending (parse_clauses parsed).
Proof.
  unfold Converter.parse_clauses. apply extending_bind.
  - apply extending_for_each. exact extending_parseWhereClause.
  - intros _. destruct (having parsed) as [hs|]; [|apply extending_ret].
    destruct (group parsed) as [gs|]; [|apply extending_ret].
    apply extending_bind; [apply extending_assert|]. intros _.
    destruct gs as [|g gs]; [apply extending_throw|].
    apply extending_for_each. intros clause. apply extending_parseHavingClause.
Qed.

(** X16: The clauses of a query only extend what the converter holds: folding a
    where clause, a having clause or all the clauses of a parsed query keeps
    the keywords, removes no table and only appends to the projections,
    filters and verifications of a table, also when the method throws. *)
Theorem clauses_only_extend :
  (forall w, extending (_parseWhereClause w))
  /\ (forall h g, extending (_parseHavingClause h g))
  /\ (forall parsed, extending (parse_clauses parsed)).
Proof.
  split; [exact extending_parseWhereClause|].
  split; [exact extending_parseHavingClause | exact extending_parse_clauses].
Qed.

(** ** The method [convert] *)

(** X17: [convert] starts afresh: its outcome and the fields it leaves do not
    depend on the fields it finds, and the keywords it leaves are the given
    ones, each tokenized and joined with a space, whether it returns or
    throws. *)
Theorem convert_starts_afresh (sparql : string) (keywords : list string)
  (st st0 : state) (r : result Program) (st' : state) :
  convert sparql keywords st = (r, st') ->
  convert sparql keywords st0 = (r, st')
  /\ _keywords st'
     = map (fun keyword => join " " (_tokenizer_rawTokens keyword)) keywords.
Proof.
  intros H. split; [rewrite <- H; reflexivity|].
  unfold Converter.convert, bind, _reset, throw, get_tables in H.
  destruct (_parser_parse sparql) as [parsed|e].
  - destruct (parse_clauses parsed (reset_state keywords)) as [[[]|e] st1] eqn:E;
      inversion H; subst;
      exact (proj1 (extending_parse_clauses parsed _ _ _ E)).
  - inversion H. reflexivity.
Qed.

Lemma table_query_silent (vars : list string) (kv : string * Table)
  (queries : list Expression) :
  has_output vars kv = false -> table_query vars kv queries = Ok queries.
Proof.
  destruct kv as [s T]. unfold has_output, table_query. simpl.
  destruct (verifications T); [|discriminate].
  destruct (selected vars s T); [reflexivity | discriminate].
Qed.

Lemma table_queries_filter (vars : list string) (l : list (string * Table))
  (queries : list Expression) :
  table_queries vars l queries
  = table_queries vars (filter (has_output vars) l) queries.
Proof.
  revert queries. induction l as [|kv l IH]; intros queries; [reflexivity|].
  simpl. destruct (has_output vars kv) eqn:E; simpl.
  - destruct (table_query vars kv queries); [apply IH | reflexivity].
  - rewrite (table_query_silent vars kv queries E). apply IH.
Qed.

Lemma table_query_length (vars : list string) (kv : string * Table)
  (queries out : list Expression) :
  table_query vars kv queries = Ok out ->
  List.length out
  = List.length queries + (if has_output vars kv then 1 else 0).
Proof.
  intros H. destruct (question_with_projection vars kv) eqn:Q.
  - rewrite (ConverterFacts.table_query_exclusive vars kv queries Q) in H.
    discriminate.
  - destruct (ConverterFacts.table_query_output vars kv queries Q) as [o [E [L _]]].
    rewrite E in H. inversion H. rewrite length_app, L. reflexivity.
Qed.

Lemma table_queries_length (vars : list string) (l : list (string * Table))
  (queries out : list Expression) :
  table_queries vars l queries = Ok out ->
  List.length out
  = List.length queries + List.length (filter (has_output vars) l).
Proof.
  revert queries. induction l as [|kv l IH]; intros queries H; simpl in *.
  - inversion H. lia.
  - destruct (table_query vars kv queries) as [q1|e] eqn:E; [|discriminate].
    rewrite (IH _ H), (table_query_length vars kv queries q1 E).
    destruct (has_output vars kv); simpl; lia.
Qed.

(** X18: When the clauses were folded and the variables read, [convert] returns a
    program exactly when one table has output and the round of the loop on
    that table alone yields one query; the program is made of that query,
    whatever the tables without output hold. *)
Theorem convert_returns_the_only_table
  (sparql : string) (keywords : list string) (parsed : SelectQuery)
  (vars : list string) (st st1 : state) (p : Program) :
  _parser_parse sparql = Ok parsed ->
  parse_clauses parsed (reset_state keywords) = (Ok tt, st1) ->
  read_variables (from_option (variables parsed)) [] = Ok vars ->
  (convert sparql keywords st = (Ok p, st1)
   <-> exists kv q,
         filter (has_output vars) (JsObject.entries (_tables st1)) = [kv]
         /\ table_query vars kv [] = Ok [q]
         /\ p = makeProgram q).
Proof.
  intros Hp Hc Hv.
  rewrite (ConverterFacts.convert_generates _schema _parser_parse
             _wikidata_getLabel _tokenizer_rawTokens closest isNaN
             sparql keywords parsed st st1 Hp Hc).
  unfold generate. rewrite Hv. split.
  - intros H.
    destruct (table_queries vars (JsObject.entries (_tables st1)) []) as [out|e] eqn:E;
      [|discriminate].
    destruct out as [|q [|q2 out]]; try discriminate.
    pose proof (table_queries_length vars _ [] [q] E) as L. simpl in L.
    rewrite table_queries_filter in E.
    destruct (filter (has_output vars) (JsObject.entries (_tables st1)))
      as [|kv [|kv2 rest]]; try discriminate.
    exists kv, q. split; [reflexivity|]. simpl in E.
    destruct (table_query vars kv []) as [o|e]; [|discriminate].
    split; congruence.
  - intros [kv [q [Hf [Hq ->]]]].
    rewrite table_queries_filter, Hf. simpl. rewrite Hq. reflexivity.
Qed.

Lemma read_variables_stops (before after : list variable_entry)
  (v : variable_entry) (vars : list string) :
  Forall named_variable before ->
  ~ named_variable v ->
  read_variables (before ++ v :: after) vars = Err (UnsupportedVariableType v).
Proof.
  intros Hb Hv. revert vars.
  induction Hb as [|b before Hn _ IH]; intros vars; simpl.
  - destruct v as [t|e t]; [|reflexivity].
    simpl in Hv. destruct (String.eqb (value t) "*"); [reflexivity|].
    now destruct Hv.
  - destruct b as [t|e t]; [|destruct Hn].
    simpl in Hn. rewrite Hn. simpl. apply IH.
Qed.

(** X19: When the clauses were folded, the first selected entry that is the
    wildcard or an expression makes [convert] throw the unsupported-variable
    error for that entry, before any table is looked at. *)
Theorem unnamed_variable_not_supported
  (sparql : string) (keywords : list string) (parsed : SelectQuery)
  (before after : list variable_entry) (v : variable_entry) (st st1 : state) :
  _parser_parse sparql = Ok parsed ->
  parse_clauses parsed (reset_state keywords) = (Ok tt, st1) ->
  variables parsed = Some (before ++ v :: after) ->
  Forall named_variable before ->
  ~ named_variable v ->
  convert sparql keywords st = (Err (UnsupportedVariableType v), st1).
Proof.
  intros Hp Hc Hvars Hb Hv.
  rewrite (ConverterFacts.convert_generates _schema _parser_parse
             _wikidata_getLabel _tokenizer_rawTokens closest isNaN
             sparql keywords parsed st st1 Hp Hc).
  unfold generate. rewrite Hvars. simpl from_option.
  now rewrite (read_variables_stops before after v [] Hb Hv).
Qed.

(** ** Having clauses *)






(** ** Unions without a condition *)

(** The filters of the table of a subject, none when it has no table. *)
Local Abbreviation filters_of st s :=
  (match JsObject.get (_tables st) s with Some T => filters T | None => [] end).





(** ** Conditions on one property *)

(** X22: What [_atomFilter] returns.  It changes no field; the value is an IRI of
    an entity that has a label, and the condition compares a field with that
    entity, displayed as the keyword chosen for the label.  For [id] the
    field is [id], the operator [==] and the type the one of all entities;
    for another property the schema gives the field and a type that is an
    entity type once its arrays are removed, and the operator is [contains]
    when that type is an array and [==] otherwise. *)
Theorem atomFilter_returns (P v : string) (st st' : state) (a : BooleanExpression) :
  _atomFilter (Some P) v st = (Ok a, st') ->
  st' = st
  /\ startsWith v ENTITY_PREFIX = true
  /\ exists label type,
       _wikidata_getLabel (slice (String.length ENTITY_PREFIX) v) = Some label
       /\ label <> EmptyString
       /\ (P = "id" ->
           a = AtomBooleanExpression (Some "id") "=="
                 (Entity (slice (String.length ENTITY_PREFIX) v) "org.wikidata:entity"
                    (closest label (_keywords st))))
       /\ (P <> "id" ->
           exists pty,
             getPropertyType _schema (slice (String.length PROPERTY_PREFIX) P)
             = Some pty
             /\ elemType pty = TEntity type
             /\ a = AtomBooleanExpression
                      (getProperty _schema (slice (String.length PROPERTY_PREFIX) P))
                      (if is_array (Some pty) then "contains" else "==")
                      (Entity (slice (String.length ENTITY_PREFIX) v) type
                         (closest label (_keywords st)))).
Proof.
  intros H. split; [exact (atomFilter_keeps _ _ _ _ _ H)|].
  unfold Converter._atomFilter in H.
  destruct (String.eqb_spec P "id") as [->|Hne].
  - unfold bind, Converter._toThingTalkValue, option_map, elemType, assert, ret,
      throw, get_keywords in H.
    destruct (startsWith v ENTITY_PREFIX); [|discriminate].
    split; [reflexivity|].
    destruct (_wikidata_getLabel (slice (String.length ENTITY_PREFIX) v))
      as [[|c label]|]; try discriminate.
    simpl in H. inversion H.
    exists (String c label), "org.wikidata:entity".
    repeat split; [discriminate | congruence].
  - unfold bind, Converter._toThingTalkValue, option_map in H.
    destruct (getPropertyType _schema (slice (String.length PROPERTY_PREFIX) P))
      as [pty|] eqn:Ety; [|discriminate].
    destruct (elemType pty) as [|type| |] eqn:Eel; try discriminate.
    unfold bind, assert, ret, throw, get_keywords in H.
    destruct (startsWith v ENTITY_PREFIX); [|discriminate].
    split; [reflexivity|].
    destruct (_wikidata_getLabel (slice (String.length ENTITY_PREFIX) v))
      as [[|c label]|]; try discriminate.
    simpl in H. inversion H.
    exists (String c label), type.
    repeat split; [discriminate | congruence |].
    intros _. exists pty. repeat split. exact Eel.
Qed.

(** X23: A property that the schema does not know, or whose type is not an entity
    type once its arrays are removed, gives no condition: [_atomFilter]
    throws the unsupported-value-type error with that type, and changes no
    field. *)
Theorem atomFilter_unsupported_type (P v : string) (st : state) :
  P <> "id" ->
  (forall type,
     option_map elemType
       (getPropertyType _schema (slice (String.length PROPERTY_PREFIX) P))
     <> Some (TEntity type)) ->
  _atomFilter (Some P) v st
  = (Err (UnsupportedValueType
            (option_map elemType
               (getPropertyType _schema (slice (String.length PROPERTY_PREFIX) P)))),
     st).
Proof.
  intros Hne Hty. unfold Converter._atomFilter.
  destruct (String.eqb_spec P "id") as [|_]; [contradiction|].
  unfold bind, Converter._toThingTalkValue.
  destruct (option_map elemType
              (getPropertyType _schema (slice (String.length PROPERTY_PREFIX) P)))
    as [[| type | |]|]; try reflexivity.
  now destruct (Hty type).
Qed.

End Methods.

End ConverterExtra.

(* ================================================================= *)
(** * More properties on the fixture *)
(* ================================================================= *)

Module MoreChecks.

Import Wikidata Converter ConverterSpec Fixture Replies.

(** ** The request primitive *)

Lemma request_lib_cache_round_trip_witness :
  exists w1,
    _request Fixture.JNull Fixture.JSON_parse answering
      "https://www.wikidata.org/w/api.php" true no_world
    = (Returned (Fixture.JObject []), w1)
    /\ fetched w1 = fetched no_world ++ ["https://www.wikidata.org/w/api.php"]
    /\ _request Fixture.JNull Fixture.JSON_parse answering
         "https://www.wikidata.org/w/api.php" true w1
       = (Returned (Fixture.JObject []), w1).
Proof.
  apply (WikidataExtra.request_lib_cache_round_trip
           Fixture.json Fixture.JNull Fixture.JSON_parse answering
           "https://www.wikidata.org/w/api.php" "{}" (Fixture.JObject []) no_world);
    reflexivity.
Defined.

Lemma request_dist_cache_round_trip_witness :
  exists w1,
    Dist._request Fixture.JNull Fixture.JSON_parse answering
      "https://www.wikidata.org/w/api.php" true 1 no_world
    = (Returned (Fixture.JObject []), w1)
    /\ fetched w1 = fetched no_world ++ ["https://www.wikidata.org/w/api.php"]
    /\ Dist._request Fixture.JNull Fixture.JSON_parse answering
         "https://www.wikidata.org/w/api.php" true 1 w1
       = (Returned (Fixture.JObject []), w1).
Proof.
  apply (WikidataExtra.request_dist_cache_round_trip
           Fixture.json Fixture.JNull Fixture.JSON_parse answering
           "https://www.wikidata.org/w/api.php" "{}" (Fixture.JObject []) no_world);
    reflexivity.
Defined.

(** ** The accessors *)

Lemma getLabel_null_or_invalid_id_witness :
  WikidataUtils.getLabel JSON_parse offline entities_url "Paris" no_world
  = (WikidataUtils.Done WikidataUtils.null, no_world)
  /\ WikidataUtils.getLabel JSON_parse offline entities_url "xQ90x" no_world
     = (WikidataUtils.Raise WikidataUtils.InvalidEntityId, no_world)
  /\ WikidataUtils.getLabel JSON_parse offline entities_url "Q90" no_world
     = (WikidataUtils.Done WikidataUtils.null,
        log [LogText "Failed to retrieve label for Q90"]
          (WikidataSpec.after_rejection
             "https://www.wikidata.org/w/api.php?action=wbgetentities&ids=Q90&languages=en&props=labels"
             no_world)).
Proof.
  split; [|split].
  - apply (proj1 (WikidataExtra.getLabel_null_or_invalid_id
                    JSON_parse offline entities_url "Paris" no_world)).
    reflexivity.
  - apply (proj1 (proj2 (WikidataExtra.getLabel_null_or_invalid_id
                           JSON_parse offline entities_url "xQ90x" no_world)));
      reflexivity.
  - apply (proj2 (proj2 (WikidataExtra.getLabel_null_or_invalid_id
                           JSON_parse offline entities_url "Q90" no_world)));
      reflexivity.
Defined.

Lemma query_rejected_throws_witness :
  let url := WikidataUtils.query_url text "SELECT ?v WHERE { wd:Q90 wdt:P17 ?v. }" in
  WikidataUtils.getPropertyValue JSON_parse offline text "Q90" "P17" no_world
  = (WikidataUtils.Raise WikidataUtils.TypeError,
     WikidataSpec.after_rejection url no_world).
Proof.
  intros url.
  apply (proj1 (proj2 (WikidataExtra.query_rejected_throws
                         JSON_parse offline text "" "Q90" "P17" no_world)));
    reflexivity.
Defined.

Lemma getDomain_without_counting_witness :
  exists d,
    WikidataUtils.getDomain JSON_parse answering_domains text "Q42" no_world
    = (WikidataUtils.Done d,
       snd (WikidataUtils.getPropertyValue JSON_parse answering_domains text
              "Q42" "P31" no_world))
    /\ d = WikidataUtils.JString "Q5".
Proof.
  destruct (WikidataExtra.getDomain_without_counting
              JSON_parse answering_domains text "Q42"
              [WikidataUtils.JString "Q36180"; WikidataUtils.JString "Q5"]
              no_world
              (snd (WikidataUtils.getPropertyValue JSON_parse answering_domains text
                      "Q42" "P31" no_world)))
    as [d [H [_ [_ [H5 _]]]]].
  - vm_compute. reflexivity.
  - right. left. reflexivity.
  - exists d. split; [exact H|]. apply H5; [simpl; lia | reflexivity].
Defined.

(** ** converter.ts *)

Lemma convert_starts_afresh_witness :
  convert schema Fixture.parse getLabel rawTokens nearest notNumber
    "countries of europe" ["Europe"] cities
  = run "countries of europe" ["Europe"]
  /\ _keywords (snd (run "countries of europe" ["Europe"])) = ["Europe"].
Proof.
  apply (ConverterExtra.convert_starts_afresh
           schema Fixture.parse getLabel rawTokens nearest notNumber
           "countries of europe" ["Europe"] (mkState [] []) cities
           (fst (run "countries of europe" ["Europe"]))
           (snd (run "countries of europe" ["Europe"]))).
  vm_compute. reflexivity.
Defined.

Lemma convert_returns_the_only_table_witness :
  run "countries of europe" ["Europe"]
  = (Ok europe_program, snd (run "countries of europe" ["Europe"])).
Proof.
  apply (proj2 (ConverterExtra.convert_returns_the_only_table
                  schema Fixture.parse getLabel rawTokens nearest notNumber
                  "countries of europe" ["Europe"] countries_of_europe ["x"]
                  (mkState [] []) (snd (run "countries of europe" ["Europe"]))
                  europe_program eq_refl eq_refl eq_refl)).
  eexists _, _. split; [vm_compute; reflexivity|].
  split; vm_compute; reflexivity.
Defined.

Lemma unnamed_variable_not_supported_witness :
  convert schema Replies.parse getLabel rawTokens nearest notNumber
    "everything" ["USA"] (mkState [] [])
  = (Err (UnsupportedVariableType (VTerm (mkTerm Wildcard "*"))),
     mkState ["USA"]
       [("x",
         mkTable (Some "entity") []
           [AtomBooleanExpression (Some "country") "=="
              (Entity "Q30" "org.wikidata:p_country" (Some "USA"))] [])]).
Proof.
  apply (ConverterExtra.unnamed_variable_not_supported
           schema Replies.parse getLabel rawTokens nearest notNumber
           "everything" ["USA"] everything [] [] (VTerm (mkTerm Wildcard "*"))).
  - reflexivity.
  - vm_compute. reflexivity.
  - reflexivity.
  - constructor.
  - vm_compute. discriminate.
Defined.



Lemma atomFilter_returns_witness :
  let st := mkState ["Europe"] [] in
  st = st
  /\ startsWith (ENTITY_PREFIX ++ "Q46") ENTITY_PREFIX = true
  /\ exists label type,
       getLabel (slice (String.length ENTITY_PREFIX) (ENTITY_PREFIX ++ "Q46"))
       = Some label
       /\ label <> EmptyString
       /\ ((PROPERTY_PREFIX ++ "P30")%string = "id" ->
           AtomBooleanExpression (Some "continent") "contains"
             (Entity "Q46" "org.wikidata:p_continent" (Some "Europe"))
           = AtomBooleanExpression (Some "id") "=="
               (Entity (slice (String.length ENTITY_PREFIX) (ENTITY_PREFIX ++ "Q46"))
                  "org.wikidata:entity" (nearest label (_keywords st))))
       /\ ((PROPERTY_PREFIX ++ "P30")%string <> "id" ->
           exists pty,
             getPropertyType schema
               (slice (String.length PROPERTY_PREFIX) (PROPERTY_PREFIX ++ "P30"))
             = Some pty
             /\ elemType pty = TEntity type
             /\ AtomBooleanExpression (Some "continent") "contains"
                  (Entity "Q46" "org.wikidata:p_continent" (Some "Europe"))
                = AtomBooleanExpression
                    (getProperty schema
                       (slice (String.length PROPERTY_PREFIX)
                          (PROPERTY_PREFIX ++ "P30")))
                    (if is_array (Some pty) then "contains" else "==")
                    (Entity
                       (slice (String.length ENTITY_PREFIX) (ENTITY_PREFIX ++ "Q46"))
                       type (nearest label (_keywords st)))).
Proof.
  intros st.
  apply (ConverterExtra.atomFilter_returns schema getLabel nearest
           (PROPERTY_PREFIX ++ "P30")%string (ENTITY_PREFIX ++ "Q46")%string st st
           (AtomBooleanExpression (Some "continent") "contains"
              (Entity "Q46" "org.wikidata:p_continent" (Some "Europe")))).
  reflexivity.
Defined.

Lemma atomFilter_unsupported_type_witness :
  _atomFilter schema getLabel nearest (Some (PROPERTY_PREFIX ++ "P1082")%string)
    "12" (mkState [] [])
  = (Err (UnsupportedValueType None), mkState [] []).
Proof.
  apply (ConverterExtra.atomFilter_unsupported_type schema getLabel nearest
           (PROPERTY_PREFIX ++ "P1082")%string "12" (mkState [] [])).
  - discriminate.
  - intros type. vm_compute. discriminate.
Defined.

End MoreChecks.
